(** * html-form-validation: the Validator of src/js/validator.js (0.2.1)

    A shallow embedding of the jQuery form validator and the properties of
    its validation pass.

    Conventions of the embedding.
    - A JavaScript string is a Rocq [string], one character per UTF-16 code
      unit; only code units below 256 are represented in values that the
      code measures or matches.  The texts of the Russian catalog are given
      by their UTF-8 bytes: the validator only concatenates and displays
      them.
    - A JavaScript number is an integer [JSNum n] of magnitude below 2^53
      or [JSNaN]; fractional numbers, infinities and larger integers are
      outside the model (JavaScript rounds them, and prints those from
      10^21 on with an exponent, where [JS.ToString] prints every digit).
    - The DOM is the form element with the list of its descendant elements
      in document order; a jQuery set over them is a list of indices. *)

From Stdlib Require Import ZArith Lia Ascii String List Bool.
From stdpp Require Import base option list strings gmap pretty.

Local Open Scope string_scope.
Local Open Scope list_scope.
Local Open Scope Z_scope.

(** ** JavaScript values *)

Inductive JSValue : Type :=
| JSUndefined
| JSNull
| JSBool (b : bool)
| JSNum (n : Z)
| JSNaN
| JSStr (s : string).

Inductive JSError : Type :=
| TypeError
| UserError (what : string).   (* an exception of the caller's own *)

(** Result of a computation that reads the DOM and may throw. *)
Inductive JSResult (A : Type) : Type :=
| Val (a : A)
| Exn (e : JSError).
Arguments Val {A} a.
Arguments Exn {A} e.

Definition rbind {A B} (r : JSResult A) (k : A -> JSResult B) : JSResult B :=
  match r with
  | Val a => k a
  | Exn e => Exn e
  end.

Notation "'let*' x ':=' r 'in' k" := (rbind r (fun x => k))
  (at level 10, x name, r at level 100, k at level 200).

Module JS.

(** ToBoolean *)
Definition truthy (v : JSValue) : bool :=
  match v with
  | JSUndefined | JSNull | JSNaN => false
  | JSBool b => b
  | JSNum n => negb (n =? 0)
  | JSStr s => negb (String.eqb s "")
  end.

(** ToString *)
Definition ToString (v : JSValue) : string :=
  match v with
  | JSUndefined => "undefined"
  | JSNull => "null"
  | JSBool true => "true"
  | JSBool false => "false"
  | JSNum n => pretty n
  | JSNaN => "NaN"
  | JSStr s => s
  end.

(** ToNumber of a value that is not a string *)
Definition ToNumber_prim (v : JSValue) : JSValue :=
  match v with
  | JSUndefined => JSNaN
  | JSNull => JSNum 0
  | JSBool true => JSNum 1
  | JSBool false => JSNum 0
  | JSNum n => JSNum n
  | JSNaN => JSNaN
  | JSStr _ => JSNaN
  end.

Definition is_string (v : JSValue) : bool :=
  match v with JSStr _ => true | _ => false end.

(** The binary [+]: concatenation as soon as one operand is a string,
    numeric addition otherwise. *)
Definition add (a b : JSValue) : JSValue :=
  if is_string a || is_string b then JSStr (String.append (ToString a) (ToString b))
  else match ToNumber_prim a, ToNumber_prim b with
       | JSNum x, JSNum y => JSNum (x + y)
       | _, _ => JSNaN
       end.

(** [a && b] *)
Definition and (a b : JSValue) : JSValue := if truthy a then b else a.

(** [a === b] *)
Definition strict_eq (a b : JSValue) : bool :=
  match a, b with
  | JSUndefined, JSUndefined => true
  | JSNull, JSNull => true
  | JSBool x, JSBool y => Bool.eqb x y
  | JSNum x, JSNum y => x =? y
  | JSStr x, JSStr y => String.eqb x y
  | _, _ => false
  end.

(** [v.length] where [v] is a primitive that is neither null nor
    undefined: the length of a string, undefined for the others. *)
Definition length_of (v : JSValue) : JSValue :=
  match v with
  | JSStr s => JSNum (Z.of_nat (String.length s))
  | _ => JSUndefined
  end.

(** White space and line terminators (StrWhiteSpaceChar, and the class
    [\s] of regular expressions) among the code units below 256. *)
Definition is_space (a : ascii) : bool :=
  let n := nat_of_ascii a in
  existsb (Nat.eqb n) [9; 10; 11; 12; 13; 32; 160]%nat.

Definition digit_of (a : ascii) : option Z :=
  let n := Z.of_nat (nat_of_ascii a) in
  if (48 <=? n) && (n <=? 57) then Some (n - 48) else None.

Definition is_digit (a : ascii) : bool :=
  match digit_of a with Some _ => true | None => false end.

Fixpoint drop_space (cs : list ascii) : list ascii :=
  match cs with
  | c :: cs' => if is_space c then drop_space cs' else cs
  | [] => []
  end.

(** Longest prefix of decimal digits, and the rest. *)
Fixpoint span_digits (cs : list ascii) : list ascii * list ascii :=
  match cs with
  | c :: cs' =>
      if is_digit c
      then let '(ds, rest) := span_digits cs' in (c :: ds, rest)
      else ([], cs)
  | [] => ([], [])
  end.

Definition digits_value (ds : list ascii) : Z :=
  fold_left (fun acc c => 10 * acc + default 0 (digit_of c)) ds 0.

(** Splits an optional sign off: [(negative, rest)]. *)
Definition split_sign (cs : list ascii) : bool * list ascii :=
  match cs with
  | "-"%char :: cs' => (true, cs')
  | "+"%char :: cs' => (false, cs')
  | _ => (false, cs)
  end.

(** [parseInt(v, 10)] *)
Definition parseInt (v : JSValue) : JSValue :=
  let cs := drop_space (list_ascii_of_string (ToString v)) in
  let '(neg, cs1) := split_sign cs in
  let '(ds, _) := span_digits cs1 in
  match ds with
  | [] => JSNaN
  | _ => JSNum (if neg then - digits_value ds else digits_value ds)
  end.

(** [n <= v] and [n >= v] for a number [n] and a result of parseInt. *)
Definition le (n : Z) (v : JSValue) : bool :=
  match v with JSNum m => n <=? m | _ => false end.
Definition ge (n : Z) (v : JSValue) : bool :=
  match v with JSNum m => m <=? n | _ => false end.

(** *** StringToNumber, as far as deciding whether the result is zero *)

Definition trim (cs : list ascii) : list ascii :=
  rev (drop_space (rev (drop_space cs))).

Definition all_zero (ds : list ascii) : bool :=
  forallb (fun c => Ascii.eqb c "0"%char) ds.

Definition is_exp_mark (c : ascii) : bool :=
  Ascii.eqb c "e"%char || Ascii.eqb c "E"%char.

(** After the mantissa: nothing, or an exponent part.  [None] when the
    rest is not an exponent part (the literal is malformed). *)
Definition exponent_of (rest : list ascii) : option Z :=
  match rest with
  | [] => Some 0
  | c :: rest' =>
      if is_exp_mark c then
        let '(neg, r1) := split_sign rest' in
        let '(ds, r2) := span_digits r1 in
        match ds, r2 with
        | _ :: _, [] => Some (if neg then - digits_value ds else digits_value ds)
        | _, _ => None
        end
      else None
  end.

(** A mantissa [m] scaled by [10^e] rounds to zero as a double exactly
    when it is zero or at most [2^-1075]. *)
Definition rounds_to_zero (m e : Z) : bool :=
  (m =? 0) || ((e <? 0) && (m * 2 ^ 1075 <=? 10 ^ (- e))).

Definition decimal_is_zero (cs : list ascii) : bool :=
  let '(_, cs1) := split_sign cs in
  let '(ip, r1) := span_digits cs1 in
  let '(fp, r2) :=
    match r1 with
    | "."%char :: r1' => span_digits r1'
    | _ => ([], r1)
    end in
  match ip ++ fp with
  | [] => false
  | _ =>
      match exponent_of r2 with
      | Some e => rounds_to_zero (digits_value (ip ++ fp)) (e - Z.of_nat (length fp))
      | None => false
      end
  end.

Definition is_radix_mark (c : ascii) : bool :=
  existsb (Ascii.eqb c) ["x"; "X"; "o"; "O"; "b"; "B"]%char.

(** ToNumber(s) is +0 or -0. *)
Definition string_is_zero (s : string) : bool :=
  match trim (list_ascii_of_string s) with
  | [] => true
  | "0"%char :: c :: rest =>
      if is_radix_mark c
      then match rest with [] => false | _ => all_zero rest end
      else decimal_is_zero ("0"%char :: c :: rest)
  | cs => decimal_is_zero cs
  end.

(** [v != 0] *)
Definition loose_ne_zero (v : JSValue) : bool :=
  match v with
  | JSUndefined | JSNull | JSNaN => true
  | JSBool b => b
  | JSNum n => negb (n =? 0)
  | JSStr s => negb (string_is_zero s)
  end.

End JS.

(** ** Regular expressions

    The pattern of [Validator.validateEmail] uses no back-reference and no
    look-around, so that [RegExp.prototype.test] succeeds exactly when some
    substring allowed by the anchors belongs to the language of the pattern;
    membership is decided with derivatives. *)

Module Regex.

Inductive regex : Type :=
| Fail
| Eps
| Class (p : ascii -> bool)
| Alt (r1 r2 : regex)
| Seq (r1 r2 : regex)
| Star (r : regex).

Fixpoint nullable (r : regex) : bool :=
  match r with
  | Fail => false
  | Eps => true
  | Class _ => false
  | Alt r1 r2 => nullable r1 || nullable r2
  | Seq r1 r2 => nullable r1 && nullable r2
  | Star _ => true
  end.

Definition alt (r1 r2 : regex) : regex :=
  match r1, r2 with
  | Fail, _ => r2
  | _, Fail => r1
  | _, _ => Alt r1 r2
  end.

Definition seq (r1 r2 : regex) : regex :=
  match r1, r2 with
  | Fail, _ => Fail
  | _, Fail => Fail
  | Eps, _ => r2
  | _, _ => Seq r1 r2
  end.

Fixpoint deriv (c : ascii) (r : regex) : regex :=
  match r with
  | Fail => Fail
  | Eps => Fail
  | Class p => if p c then Eps else Fail
  | Alt r1 r2 => alt (deriv c r1) (deriv c r2)
  | Seq r1 r2 =>
      if nullable r1
      then alt (seq (deriv c r1) r2) (deriv c r2)
      else seq (deriv c r1) r2
  | Star r1 => seq (deriv c r1) (Star r1)
  end.

(** The whole of [s] belongs to the language of [r]. *)
Fixpoint matches (r : regex) (s : string) : bool :=
  match s with
  | EmptyString => nullable r
  | String c s' => matches (deriv c r) s'
  end.

(** Some suffix of [s] belongs to the language of [r]: a pattern anchored
    at the end only. *)
Fixpoint matches_suffix (r : regex) (s : string) : bool :=
  matches r s ||
  match s with
  | EmptyString => false
  | String _ s' => matches_suffix r s'
  end.

Definition chr (c : ascii) : regex := Class (Ascii.eqb c).
Definition plus (r : regex) : regex := Seq r (Star r).
Definition opt (r : regex) : regex := Alt Eps r.

(** [r{n}] and [r{0,n}] *)
Fixpoint times (n : nat) (r : regex) : regex :=
  match n with
  | O => Eps
  | S n' => Seq r (times n' r)
  end.
Fixpoint upto (n : nat) (r : regex) : regex :=
  match n with
  | O => Eps
  | S n' => opt (Seq r (upto n' r))
  end.

Fixpoint seqs (rs : list regex) : regex :=
  match rs with
  | [] => Eps
  | [r] => r
  | r :: rs' => Seq r (seqs rs')
  end.
Fixpoint alts (rs : list regex) : regex :=
  match rs with
  | [] => Fail
  | [r] => r
  | r :: rs' => Alt r (alts rs')
  end.

Definition in_range (lo hi : ascii) (c : ascii) : bool :=
  (nat_of_ascii lo <=? nat_of_ascii c)%nat && (nat_of_ascii c <=? nat_of_ascii hi)%nat.

(** [[0-9]], and the range [[lo-hi]] of digits *)
Definition digit : regex := Class (in_range "0" "9").
Definition range (lo hi : ascii) : regex := Class (in_range lo hi).

(** [[a-z]] under the flag [i] *)
Definition is_letter (c : ascii) : bool := in_range "a" "z" c || in_range "A" "Z" c.
Definition letter : regex := Class is_letter.

(** [\w] *)
Definition is_word (c : ascii) : bool :=
  is_letter c || in_range "0" "9" c || Ascii.eqb c "_".

(** [[\w-]] and [[\w-\s]] *)
Definition word_dash : regex := Class (fun c => is_word c || Ascii.eqb c "-").
Definition word_dash_space : regex :=
  Class (fun c => is_word c || Ascii.eqb c "-" || JS.is_space c).

End Regex.

Module EmailPattern.
Import Regex.

(** Pieces of the pattern, named after what they accept.

    quoted: a double quote, [[\w-\s]+], a double quote. *)
Definition dquote : ascii := ascii_of_nat 34.
Definition quoted : regex := seqs [chr dquote; plus word_dash_space; chr dquote].
(** dotted: [[\w-]+(?:\.[\w-]+)*] *)
Definition dotted : regex := Seq (plus word_dash) (Star (Seq (chr ".") (plus word_dash))).
(** first group: [(quoted)|(dotted)|(quoted)(dotted)] *)
Definition local_part : regex := alts [quoted; dotted; Seq quoted dotted].
(** second group: [(@((?:[\w-]+\.)*\w[\w-]{0,66})\.([a-z]{2,6}(?:\.[a-z]{2})?)$)] *)
Definition named_host : regex :=
  seqs [chr "@";
        Star (Seq (plus word_dash) (chr "."));
        Class is_word; upto 66 word_dash;
        chr ".";
        times 2 letter; upto 4 letter;
        opt (Seq (chr ".") (times 2 letter))].
(** octet: [25[0-5]|2[0-4][0-9]|1[0-9]{2}|[0-9]{1,2}] *)
Definition octet : regex :=
  alts [seqs [chr "2"; chr "5"; range "0" "5"];
        seqs [chr "2"; range "0" "4"; digit];
        seqs [chr "1"; digit; digit];
        Seq digit (opt digit)].
(** [(25[0-5]\.|2[0-4][0-9]\.|1[0-9]{2}\.|[0-9]{1,2}\.)] *)
Definition octet_dot : regex :=
  alts [seqs [chr "2"; chr "5"; range "0" "5"; chr "."];
        seqs [chr "2"; range "0" "4"; digit; chr "."];
        seqs [chr "1"; digit; digit; chr "."];
        seqs [digit; opt digit; chr "."]].
(** last group: [(@\[?(octet_dot)((octet)\.){2}(octet)\]?$)] *)
Definition address_host : regex :=
  seqs [chr "@"; opt (chr "[");
        octet_dot; times 2 (Seq octet (chr ".")); octet;
        opt (chr "]")].

(** First alternative, anchored by [^] and [$]. *)
Definition anchored : regex := Seq local_part named_host.
(** Second alternative, anchored by [$] only. *)
Definition trailing : regex := address_host.

End EmailPattern.

(** [Validator.validateEmail]: the pattern is [^anchored|trailing$] with the
    flag [i]; an argument that is not a string is converted first. *)
Definition validateEmail (email : JSValue) : bool :=
  let s := JS.ToString email in
  Regex.matches EmailPattern.anchored s || Regex.matches_suffix EmailPattern.trailing s.

(** ** The DOM, as far as the validator reads and writes it *)

(** The [DEFAULTS] object of the module. *)
Module DEFAULTS.
(* selectors *)
Definition incorrectFields : string := ".incorrect".
Definition error : string := ".error".
(* class names *)
Definition incorrect : string := "incorrect".
Definition formIsValid : string := "validated".
(* data- names *)
Definition dataType : string := "validation-type".
Definition textDataName : string := "validation-text".
Definition dataCondition : string := "validation-condition".
(* values of data-validation-type *)
Definition textType : string := "text".
Definition phoneType : string := "phone".
Definition emailType : string := "email".
Definition checkboxType : string := "checkbox".
Definition radioType : string := "radio".
Definition selectType : string := "select".
(* values of data-validation-condition *)
Definition length : string := "length".
Definition equal : string := "equal".
(* value of data-validation *)
Definition requiredToValidate : string := "required".
End DEFAULTS.

(** An [input] or [textarea] inside a field. *)
Record Control : Type := {
  val : string;                     (* what .val() returns for it *)
  cdata : gmap string JSValue;      (* its jQuery data *)
  radio : bool;                     (* it matches input[type="radio"] *)
  checked : bool;                   (* it matches :checked *)
  visible : bool                    (* it matches :visible *)
}.

(** A descendant element of the form: a field container, or any other
    element that carries classes.  The descendants that a query on a field
    can reach are kept with it; fields are taken not to be nested in one
    another, and the controls and error elements of a field to carry none
    of the classes that the validator tests. *)
Record Element : Type := {
  classes : list string;
  edata : gmap string JSValue;      (* its jQuery data *)
  inputs : list Control;            (* find('input') *)
  textareas : list Control;         (* find('textarea') *)
  selects : list JSValue;           (* .val() of each element of find('select') *)
  errors : list string              (* text of each element of find('.error') *)
}.

Record Form : Type := {
  formClasses : list string;
  inModal : bool;                   (* parents('.modal') is not empty *)
  nodes : list Element              (* descendants, in document order *)
}.

(** [.data(key)] *)
Definition data (d : gmap string JSValue) (key : string) : JSValue :=
  default JSUndefined (d !! key).

Definition hasClass (c : string) (cls : list string) : bool :=
  existsb (String.eqb c) cls.
Definition addClass (c : string) (cls : list string) : list string :=
  if hasClass c cls then cls else cls ++ [c].
Definition removeClass (c : string) (cls : list string) : list string :=
  filter (fun x => x <> c) cls.

(** What an empty jQuery set reads as. *)
Definition no_element : Element :=
  {| classes := []; edata := ∅; inputs := []; textareas := []; selects := []; errors := [] |}.

(** The element a field reference stands for. *)
Definition field_at (f : Form) (i : nat) : Element :=
  default no_element (nodes f !! i).

(** [$form.find(selector)] for a selector that tests each element on its
    own: the indices of the matching descendants, in document order. *)
Fixpoint find_from (p : Element -> bool) (i : nat) (l : list Element) : list nat :=
  match l with
  | [] => []
  | e :: l' => if p e then i :: find_from p (S i) l' else find_from p (S i) l'
  end.
Definition find (p : Element -> bool) (f : Form) : list nat := find_from p 0 (nodes f).

(** A jQuery set method that changes every element of the set. *)
Definition update_all (g : Element -> Element) (set : list nat) (f : Form) : Form :=
  {| formClasses := formClasses f; inModal := inModal f;
     nodes := foldl (fun ns i => alter g i ns) (nodes f) set |}.

Definition with_classes (g : list string -> list string) (e : Element) : Element :=
  {| classes := g (classes e); edata := edata e; inputs := inputs e;
     textareas := textareas e; selects := selects e; errors := errors e |}.

(** [.text(value)] on a set of elements: an undefined argument makes the
    call a getter, which changes nothing; null is rendered as the empty
    string. *)
Definition text (value : JSValue) (texts : list string) : list string :=
  match value with
  | JSUndefined => texts
  | JSNull => map (fun _ => "") texts
  | _ => map (fun _ => JS.ToString value) texts
  end.

Definition with_errors (g : list string -> list string) (e : Element) : Element :=
  {| classes := classes e; edata := edata e; inputs := inputs e;
     textareas := textareas e; selects := selects e; errors := g (errors e) |}.

Definition form_addClass (c : string) (f : Form) : Form :=
  {| formClasses := addClass c (formClasses f); inModal := inModal f; nodes := nodes f |}.

(** ** Options, language tables, the instance *)

(** A value given as a hook: a function, null or undefined, or something
    that cannot be called.  A function is given by its effect on the DOM and
    by the way its call ends: [CbFunction f] always returns; the call of
    [CbPartial f raises] on the DOM [d] ends, after the effect, by throwing
    [raises d] when there is one. *)
Inductive Callback : Type :=
| CbFunction (f : Form -> Form)
| CbNullish
| CbNotCallable
| CbPartial (f : Form -> Form) (raises : Form -> option JSError).

(** The [ajax] option: an object of settings, or a falsy value. *)
Inductive Ajax : Type :=
| AjaxSettings (o : gmap string JSValue)
| AjaxFalsy.

Record Options : Type := {
  modal : bool;
  fieldsSelector : Element -> bool;   (* the selector, as the test it stands for *)
  removeErrorOnFocusOut : bool;
  ajax : Ajax;
  lang : string;
  beforeValidation : Callback;
  afterValidation : Callback;
  onValid : Callback
}.

(** The options object a caller passes; [None] is a property that is
    absent or undefined, which [$.extend] passes over. *)
Record UserOptions : Type := {
  u_modal : option bool;
  u_fieldsSelector : option (Element -> bool);
  u_removeErrorOnFocusOut : option bool;
  u_ajax : option Ajax;
  u_lang : option string;
  u_beforeValidation : option Callback;
  u_afterValidation : option Callback;
  u_onValid : option Callback
}.

Definition no_options : UserOptions :=
  {| u_modal := None; u_fieldsSelector := None; u_removeErrorOnFocusOut := None;
     u_ajax := None; u_lang := None; u_beforeValidation := None;
     u_afterValidation := None; u_onValid := None |}.

(** The selector [.cls]. *)
Definition class_selector (cls : string) : Element -> bool :=
  fun e => hasClass cls (classes e).

(** [$.extend(true, {defaults}, options)] *)
Definition extend_defaults (o : UserOptions) : Options :=
  {| modal := default false (u_modal o);
     fieldsSelector := default (class_selector "form-input") (u_fieldsSelector o);
     removeErrorOnFocusOut := default false (u_removeErrorOnFocusOut o);
     ajax := default (AjaxSettings ∅) (u_ajax o);
     lang := default "en" (u_lang o);
     beforeValidation := default CbNullish (u_beforeValidation o);
     afterValidation := default CbNullish (u_afterValidation o);
     onValid := default CbNullish (u_onValid o) |}.

Record MinMax : Type := { first : JSValue; second : JSValue }.

(** An entry of [this.lang]; a property that the entry lacks reads as
    undefined. *)
Record Lang : Type := {
  emptyField : JSValue;
  incorrectPhone : JSValue;
  incorrectEmail : JSValue;
  incorrectSelect : JSValue;
  symbols : JSValue;
  reqFieldLength : JSValue;
  maxFieldLength : JSValue;
  minFieldLength : JSValue;
  minMaxFieldLength : option MinMax;
  notEqual : JSValue
}.

Definition ru : Lang :=
  {| emptyField := JSStr "Заполните поле";
     incorrectPhone := JSStr "Введите корректный номер";
     incorrectEmail := JSStr "Введите корректный Email";
     incorrectSelect := JSStr "Выберите один из вариантов";
     symbols := JSStr "символов";
     reqFieldLength := JSStr "Необходимая длинна поля - ";
     maxFieldLength := JSStr "Максимальная длинна поля - ";
     minFieldLength := JSStr "Минимальная длинна поля - ";
     minMaxFieldLength :=
       Some {| first := JSStr "Кол-во символов должно быть не более ";
               second := JSStr " и не менее " |};
     notEqual := JSStr "Значение поля не совпало с ожидаемым" |}.

(** The English entry spells its unit word [symbol], so that [symbols]
    reads as undefined. *)
Definition en : Lang :=
  {| emptyField := JSStr "Fill in the field, please";
     incorrectPhone := JSStr "Please, enter a valid number";
     incorrectEmail := JSStr "Please, enter a valid email";
     incorrectSelect := JSStr "Please, select an option";
     symbols := JSUndefined;
     reqFieldLength := JSStr "Required field length is - ";
     maxFieldLength := JSStr "Maximum field length is - ";
     minFieldLength := JSStr "Minimum field length is - ";
     minMaxFieldLength :=
       Some {| first := JSStr "Number of characters should be less than ";
               second := JSStr " but not less than " |};
     notEqual := JSStr "The field value did not match with the expected value" |}.

(** What a member inherited from [Object.prototype] reads as: an object
    with none of the properties of an entry. *)
Definition inherited_member : Lang :=
  {| emptyField := JSUndefined; incorrectPhone := JSUndefined;
     incorrectEmail := JSUndefined; incorrectSelect := JSUndefined;
     symbols := JSUndefined; reqFieldLength := JSUndefined;
     maxFieldLength := JSUndefined; minFieldLength := JSUndefined;
     minMaxFieldLength := None; notEqual := JSUndefined |}.

Definition object_prototype_names : list string :=
  ["constructor"; "toString"; "toLocaleString"; "valueOf"; "hasOwnProperty";
   "isPrototypeOf"; "propertyIsEnumerable"; "__proto__"; "__defineGetter__";
   "__defineSetter__"; "__lookupGetter__"; "__lookupSetter__"].

(** [this.lang[tag]]; [None] is undefined. *)
Definition lang_table (tag : string) : option Lang :=
  if String.eqb tag "ru" then Some ru
  else if String.eqb tag "en" then Some en
  else if existsb (String.eqb tag) object_prototype_names then Some inherited_member
  else None.

(** [lang.name]: reading a property of undefined throws. *)
Definition prop {A} (l : option Lang) (name : Lang -> A) : JSResult A :=
  match l with
  | Some o => Val (name o)
  | None => Exn TypeError
  end.

(** [lang.minMaxFieldLength.name] *)
Definition prop_minMax (l : option Lang) (name : MinMax -> JSValue) : JSResult JSValue :=
  let* mm := prop l minMaxFieldLength in
  match mm with
  | Some o => Val (name o)
  | None => Exn TypeError
  end.

(** The instance: [$form] is the DOM of the state below, [lang] is
    [lang_table]. *)
Record Validator : Type := { options : Options }.

(** ** State, effects *)

Inductive Hook : Type := BeforeValidation | AfterValidation | OnValid.

Inductive Binding : Type :=
| TriggerClick        (* click.validation tap.validation on a .validate-form-button *)
| ModalHidden         (* hidden.bs.modal on the enclosing modal *)
| BodyClick.          (* click tap on body *)

(** What the validator does to its environment, in order. *)
Inductive Event : Type :=
| Called (h : Hook) (seen : Form)     (* a hook was called; the DOM it was given *)
| Warned (msg : string)               (* console.warn *)
| AjaxSent (o : gmap string JSValue)  (* $.ajax(o) *)
| Bound (b : Binding).                (* a handler was attached to an element *)

Record State : Type := { form : Form; log : list Event }.

Inductive Outcome (A : Type) : Type :=
| Returned (a : A) (s : State)
| Thrown (e : JSError) (s : State).
Arguments Returned {A} a s.
Arguments Thrown {A} e s.

(** A method of the instance: it runs on a state and returns or throws. *)
Definition M (A : Type) : Type := State -> Outcome A.

Definition ret {A} (a : A) : M A := fun s => Returned a s.
Definition bind {A B} (m : M A) (k : A -> M B) : M B :=
  fun s => match m s with
           | Returned a s' => k a s'
           | Thrown e s' => Thrown e s'
           end.

Notation "'do' x <- m ; k" := (bind m (fun x => k))
  (at level 10, x name, m at level 100, k at level 200).
Notation "m ;; k" := (bind m (fun _ => k))
  (at level 100, k at level 200, right associativity).

Definition get_form : M Form := fun s => Returned (form s) s.
Definition modify_form (g : Form -> Form) : M unit :=
  fun s => Returned tt {| form := g (form s); log := log s |}.
Definition emit (ev : Event) : M unit :=
  fun s => Returned tt {| form := form s; log := log s ++ [ev] |}.
Definition lift {A} (r : JSResult A) : M A :=
  fun s => match r with
           | Val a => Returned a s
           | Exn e => Thrown e s
           end.

Definition final {A} (o : Outcome A) : State :=
  match o with
  | Returned _ s => s
  | Thrown _ s => s
  end.

(** ** The methods *)

(** [checkAndRunCallback(callback)]; [h] names the option the value was
    read from, for the log only. *)
Definition checkAndRunCallback (h : Hook) (callback : Callback) : M unit :=
  match callback with
  | CbFunction f =>
      do d <- get_form;
      emit (Called h d);;
      modify_form f
  | CbNullish => ret tt
  | CbNotCallable => emit (Warned "Callback should be a function.")
  | CbPartial f raises =>
      do d <- get_form;
      emit (Called h d);;
      modify_form f;;
      match raises d with
      | Some x => lift (Exn x)
      | None => ret tt
      end
  end.

(** [formIsValid()] *)
Definition formIsValid (f : Form) : bool :=
  let incorrectFields := find (class_selector DEFAULTS.incorrect) f in
  negb (JS.truthy (JSNum (Z.of_nat (length incorrectFields))))
  && hasClass DEFAULTS.formIsValid (formClasses f).

(** [removeIncorrectState()] *)
Definition removeIncorrectState (v : Validator) : M unit :=
  do d <- get_form;
  let formFields := find (fieldsSelector (options v)) d in
  modify_form (update_all (with_classes (removeClass DEFAULTS.incorrect)) formFields).

(** [removeIncorrectStateOnModalClose()] *)
Definition removeIncorrectStateOnModalClose (v : Validator) : M unit :=
  do d <- get_form;
  if negb (inModal d) then emit (Warned "No modal was found")
  else emit (Bound ModalHidden).

(** [removeIncorrectStateOnFocusOut()] *)
Definition removeIncorrectStateOnFocusOut (v : Validator) : M unit :=
  emit (Bound BodyClick).

(** [throwError($field, errorText)] *)
Definition throwError (field : nat) (errorText : JSValue) : M unit :=
  modify_form (update_all (with_classes (addClass DEFAULTS.incorrect)) [field]);;
  modify_form (update_all (with_errors (text errorText)) [field]).

(** [checkFieldValidness(field, condition, errorText, valueLength)] *)
Definition checkFieldValidness (v : Validator) (field : nat)
    (condition errorText valueLength : JSValue) : M unit :=
  do d <- get_form;
  let dataText := data (edata (field_at d field)) DEFAULTS.textDataName in
  let lang := lang_table (lang (options v)) in
  let errorText :=
    if JS.truthy (JS.and dataText (JS.length_of dataText)) then dataText else errorText in
  if negb (JS.truthy valueLength) then
    do emptyField <- lift (prop lang emptyField);
    throwError field emptyField
  else if negb (JS.truthy condition) then
    throwError field errorText
  else
    modify_form (form_addClass DEFAULTS.formIsValid).

Record FieldParams : Type := {
  condition : JSValue;
  errorText : JSValue;
  valueLength : JSValue       (* the property [length] *)
}.

Definition set_errorText (p : FieldParams) (t : JSValue) : FieldParams :=
  {| condition := condition p; errorText := t; valueLength := valueLength p |}.
Definition set_condition (p : FieldParams) (c : JSValue) : FieldParams :=
  {| condition := c; errorText := errorText p; valueLength := valueLength p |}.

(** The condition and the error text that [validateTextField] computes
    from the control and the length of its value. *)
Definition text_condition (lang : option Lang) (input : Control) : JSResult (JSValue * JSValue) :=
  let value := val input in
  let valueLength := Z.of_nat (String.length value) in
  let conditionType := data (cdata input) DEFAULTS.dataCondition in
  if JS.strict_eq conditionType (JSStr DEFAULTS.length) then
    let length := data (cdata input) "length" in
    let maxLength := data (cdata input) "max-length" in
    let minLength := data (cdata input) "min-length" in
    if JS.truthy length then
      let* req := prop lang reqFieldLength in
      let* sym := prop lang symbols in
      Val (JSBool (JS.strict_eq (JSNum valueLength) (JS.parseInt length)),
           JS.add (JS.add (JS.add req length) (JSStr " ")) sym)
    else
      let maxLengthCondition := JS.le valueLength (JS.parseInt maxLength) in
      let minLengthCondition := JS.ge valueLength (JS.parseInt minLength) in
      if JS.truthy maxLength && JS.truthy minLength then
        let* fst_ := prop_minMax lang first in
        let* snd_ := prop_minMax lang second in
        Val (JSBool (maxLengthCondition && minLengthCondition),
             JS.add (JS.add (JS.add fst_ maxLength) snd_) minLength)
      else if JS.truthy maxLength then
        let* mx := prop lang maxFieldLength in
        let* sym := prop lang symbols in
        Val (JSBool maxLengthCondition,
             JS.add (JS.add (JS.add mx maxLength) (JSStr " ")) sym)
      else if JS.truthy minLength then
        let* mn := prop lang minFieldLength in
        let* sym := prop lang symbols in
        Val (JSBool minLengthCondition,
             JS.add (JS.add (JS.add mn minLength) (JSStr " ")) sym)
      else Val (JSUndefined, JSUndefined)
  else if JS.strict_eq conditionType (JSStr DEFAULTS.equal) then
    let neededValue := data (cdata input) DEFAULTS.equal in
    let* ne := prop lang notEqual in
    Val (JSBool (JS.strict_eq (JSStr value) neededValue), ne)
  else Val (JSUndefined, JSUndefined).

(** [validateTextField(field)] *)
Definition validateTextField (v : Validator) (field : Element) : JSResult FieldParams :=
  let lang := lang_table (lang (options v)) in
  let input := match inputs field with [] => textareas field | _ => inputs field end in
  match input with
  | [] => Exn TypeError            (* value is undefined; value.length throws *)
  | first_input :: _ =>
      let* ce := text_condition lang first_input in
      Val {| condition := fst ce; errorText := snd ce;
             valueLength := JSNum (Z.of_nat (String.length (val first_input))) |}
  end.

(** [validateEmailField(field)] *)
Definition validateEmailField (v : Validator) (field : Element) : JSResult FieldParams :=
  match inputs field with
  | [] => Exn TypeError            (* value is undefined; value.length throws *)
  | first_input :: _ =>
      let value := val first_input in
      Val {| condition := JSBool (validateEmail (JSStr value)); errorText := JSUndefined;
             valueLength := JSNum (Z.of_nat (String.length value)) |}
  end.

(** [validateRadioField(field)] *)
Definition validateRadioField (v : Validator) (field : Element) : bool :=
  let checkedVisibleRadio :=
    List.filter (fun c => radio c && checked c && visible c) (inputs field) in
  (1 <=? Z.of_nat (length checkedVisibleRadio)).

(** [field.find('select').val()]; [.val()] of an empty set is undefined. *)
Definition selected_value (field : Element) : JSValue :=
  match selects field with
  | [] => JSUndefined
  | x :: _ => x
  end.

(** [validateSelectField(field)] *)
Definition validateSelectField (v : Validator) (field : Element) : FieldParams :=
  let value := selected_value field in
  {| condition := JS.and value (JSBool (JS.loose_ne_zero value)); errorText := JSUndefined;
     valueLength := JSNum 1 |}.

(** The parameters that [validateField] hands to [checkFieldValidness]. *)
Definition fieldParams (v : Validator) (field : Element) : JSResult FieldParams :=
  let lang := lang_table (lang (options v)) in
  let type := data (edata field) DEFAULTS.dataType in
  let* emptyField := prop lang emptyField in
  let fieldParams := {| condition := JSBool true; errorText := emptyField; valueLength := JSNum 1 |} in
  if JS.strict_eq type (JSStr DEFAULTS.textType) then
    validateTextField v field
  else if JS.strict_eq type (JSStr DEFAULTS.phoneType) then
    let* fieldParams := validateTextField v field in
    let* t := prop lang incorrectPhone in
    Val (set_errorText fieldParams t)
  else if JS.strict_eq type (JSStr DEFAULTS.emailType) then
    let* fieldParams := validateEmailField v field in
    let* t := prop lang incorrectEmail in
    Val (set_errorText fieldParams t)
  else if JS.strict_eq type (JSStr DEFAULTS.radioType) then
    Val (set_condition fieldParams (JSBool (validateRadioField v field)))
  else if JS.strict_eq type (JSStr DEFAULTS.selectType) then
    let fieldParams := validateSelectField v field in
    let* t := prop lang incorrectSelect in
    Val (set_errorText fieldParams t)
  else Val fieldParams.

(** [validateField(field)] *)
Definition validateField (v : Validator) (field : nat) : M unit :=
  do d <- get_form;
  do p <- lift (fieldParams v (field_at d field));
  checkFieldValidness v field (condition p) (errorText p) (valueLength p).

(** [$formFields.each(callback)] *)
Fixpoint each (set : list nat) (callback : nat -> M unit) : M unit :=
  match set with
  | [] => ret tt
  | i :: set' => callback i;; each set' callback
  end.

(** The function that [validateAllFields] passes to [each]. *)
Definition validate_if_required (v : Validator) (field : nat) : M unit :=
  do d <- get_form;
  let requiredToValidate :=
    JS.strict_eq (data (edata (field_at d field)) "validation")
                 (JSStr DEFAULTS.requiredToValidate) in
  if requiredToValidate then validateField v field else ret tt.

(** [validateAllFields()] *)
Definition validateAllFields (v : Validator) : M unit :=
  do d <- get_form;
  let formFields := find (fieldsSelector (options v)) d in
  each formFields (validate_if_required v).

(** [sendIfValidated(ajaxOptions)] *)
Definition sendIfValidated (v : Validator) (ajaxOptions : Ajax) : M unit :=
  let options := options v in
  let ajaxOptions := match ajaxOptions with AjaxFalsy => ajax options | _ => ajaxOptions end in
  let formIsValidCallback : M unit :=
    checkAndRunCallback OnValid (onValid options);;
    match ajaxOptions with
    | AjaxSettings o => emit (AjaxSent o)
    | AjaxFalsy => ret tt
    end in
  checkAndRunCallback BeforeValidation (beforeValidation options);;
  do d <- get_form;
  (if formIsValid d then formIsValidCallback else ret tt);;
  checkAndRunCallback AfterValidation (afterValidation options).

(** [runFormValidation()]; [sendIfValidated] is called without argument. *)
Definition runFormValidation (v : Validator) : M unit :=
  removeIncorrectState v;;
  validateAllFields v;;
  sendIfValidated v AjaxFalsy.

(** [bindOnClickValidation()]: [.on] attaches the handler to every
    element of the set, to none when the form has no trigger. *)
Definition bindOnClickValidation (v : Validator) : M unit :=
  do d <- get_form;
  let button := find (class_selector "validate-form-button") d in
  each button (fun _ => emit (Bound TriggerClick)).

(** [init()] *)
Definition init (v : Validator) : M unit :=
  bindOnClickValidation v;;
  (if modal (options v) then removeIncorrectStateOnModalClose v else ret tt);;
  (if removeErrorOnFocusOut (options v) then removeIncorrectStateOnFocusOut v else ret tt).

(** [new Validator(form, options)]; the form is the DOM of the state. *)
Definition new_Validator (o : UserOptions) : M Validator :=
  let this := {| options := extend_defaults o |} in
  init this;;
  ret this.

(** ** Vocabulary of the properties *)

(** A field after [throwError]: marked incorrect, with the text in its
    error elements. *)
Definition marked (t : JSValue) (e : Element) : Element :=
  with_errors (text t) (with_classes (addClass DEFAULTS.incorrect) e).

(** The field marked incorrect and showing the string [m]. *)
Definition incorrect_with (m : string) (e : Element) : Element :=
  {| classes := addClass DEFAULTS.incorrect (classes e); edata := edata e;
     inputs := inputs e; textareas := textareas e; selects := selects e;
     errors := map (fun _ => m) (errors e) |}.

(** The form with the element at [i] replaced. *)
Definition with_node (i : nat) (e : Element) (f : Form) : Form :=
  {| formClasses := formClasses f; inModal := inModal f; nodes := <[i := e]> (nodes f) |}.

(** The text that a failed condition displays: the custom text of the
    field when it is a string that is not empty, the computed one
    otherwise. *)
Definition shown_text (e : Element) (errorText : JSValue) : JSValue :=
  let dataText := data (edata e) DEFAULTS.textDataName in
  if JS.truthy (JS.and dataText (JS.length_of dataText)) then dataText else errorText.

(** The two supported locales. *)
Definition supported (v : Validator) : Prop :=
  lang (options v) = "en" \/ lang (options v) = "ru".

(** The part of an element that the validator only reads. *)
Definition same_markup (e e' : Element) : Prop :=
  edata e' = edata e /\ inputs e' = inputs e /\
  textareas e' = textareas e /\ selects e' = selects e.

(** [s] is a state that evaluating fields can reach from [s0]: nothing is
    logged, no element appears, disappears or changes its data or controls,
    and the valid flag is not removed. *)
Record evolved (s0 s : State) : Prop := {
  ev_log : log s = log s0;
  ev_modal : inModal (form s) = inModal (form s0);
  ev_flag : hasClass DEFAULTS.formIsValid (formClasses (form s0)) = true ->
            hasClass DEFAULTS.formIsValid (formClasses (form s)) = true;
  ev_nodes : Forall2 same_markup (nodes (form s0)) (nodes (form s))
}.

Definition is_nil {A} (l : list A) : bool :=
  match l with [] => true | _ => false end.

(** The field has the control that the evaluation of its type reads. *)
Definition has_control (e : Element) : bool :=
  let type := data (edata e) DEFAULTS.dataType in
  if JS.strict_eq type (JSStr DEFAULTS.textType) || JS.strict_eq type (JSStr DEFAULTS.phoneType)
  then negb (is_nil (inputs e)) || negb (is_nil (textareas e))
  else if JS.strict_eq type (JSStr DEFAULTS.emailType)
  then negb (is_nil (inputs e))
  else true.

Definition controls_present (f : Form) : Prop := Forall (fun e => has_control e = true) (nodes f).

(** What [checkAndRunCallback] logs and does to the DOM. *)
Definition hook_events (h : Hook) (callback : Callback) (d : Form) : list Event :=
  match callback with
  | CbFunction _ | CbPartial _ _ => [Called h d]
  | CbNullish => []
  | CbNotCallable => [Warned "Callback should be a function."]
  end.
Definition hook_effect (callback : Callback) (d : Form) : Form :=
  match callback with
  | CbFunction f | CbPartial f _ => f d
  | _ => d
  end.
Definition is_function (callback : Callback) : bool :=
  match callback with CbFunction _ | CbPartial _ _ => true | _ => false end.

(** The call of the hook on the DOM [d], if there is one, returns. *)
Definition hook_returns (callback : Callback) (d : Form) : bool :=
  match callback with
  | CbPartial _ raises => match raises d with Some _ => false | None => true end
  | _ => true
  end.

(** No hook of the validator throws, on whatever DOM it is called. *)
Definition hooks_return (v : Validator) : Prop :=
  forall d : Form,
    hook_returns (beforeValidation (options v)) d = true /\
    hook_returns (onValid (options v)) d = true /\
    hook_returns (afterValidation (options v)) d = true.

Definition ajax_events (a : Ajax) : list Event :=
  match a with
  | AjaxSettings o => [AjaxSent o]
  | AjaxFalsy => []
  end.

(** [ajaxOptions || options.ajax] *)
Definition ajax_or_option (v : Validator) (a : Ajax) : Ajax :=
  match a with AjaxFalsy => ajax (options v) | _ => a end.

(** What [sendIfValidated] logs when it is called on the DOM [d]; a hook
    that throws ends the call. *)
Definition send_events (v : Validator) (a : Ajax) (d : Form) : list Event :=
  let o := options v in
  let d1 := hook_effect (beforeValidation o) d in
  hook_events BeforeValidation (beforeValidation o) d
  ++ (if hook_returns (beforeValidation o) d
      then if formIsValid d1
           then hook_events OnValid (onValid o) d1
                ++ (if hook_returns (onValid o) d1
                    then ajax_events (ajax_or_option v a)
                         ++ hook_events AfterValidation (afterValidation o)
                                        (hook_effect (onValid o) d1)
                    else [])
           else hook_events AfterValidation (afterValidation o) d1
      else []).

Definition Hook_eqb (h h' : Hook) : bool :=
  match h, h' with
  | BeforeValidation, BeforeValidation => true
  | AfterValidation, AfterValidation => true
  | OnValid, OnValid => true
  | _, _ => false
  end.

(** Number of calls of the hook [h] among the events. *)
Definition calls (h : Hook) (evs : list Event) : nat :=
  length (List.filter (fun ev => match ev with Called h' _ => Hook_eqb h h' | _ => false end) evs).

(** The state in which [runFormValidation] calls [sendIfValidated]. *)
Definition evaluated (v : Validator) (s : State) : Outcome unit :=
  (removeIncorrectState v;; validateAllFields v) s.

(** ** Sample forms *)

Definition default_validator : Validator := {| options := extend_defaults no_options |}.

(** A validator whose three hooks are functions that leave the DOM alone. *)
Definition hooked_validator : Validator :=
  {| options := extend_defaults
       {| u_modal := None; u_fieldsSelector := None; u_removeErrorOnFocusOut := None;
          u_ajax := None; u_lang := None;
          u_beforeValidation := Some (CbFunction (fun d => d));
          u_afterValidation := Some (CbFunction (fun d => d));
          u_onValid := Some (CbFunction (fun d => d)) |} |}.

Definition french_options : UserOptions :=
  {| u_modal := None; u_fieldsSelector := None; u_removeErrorOnFocusOut := None;
     u_ajax := None; u_lang := Some "fr"; u_beforeValidation := None;
     u_afterValidation := None; u_onValid := None |}.

(** The data of a field container with data-validation="required" and the
    given data-validation-type. *)
Definition required_field (type : string) : gmap string JSValue :=
  <["validation" := JSStr "required"]> (<["validation-type" := JSStr type]> ∅).

Definition text_input (value : string) (d : gmap string JSValue) : Control :=
  {| val := value; cdata := d; radio := false; checked := false; visible := true |}.

Definition radio_input (is_checked : bool) : Control :=
  {| val := "on"; cdata := ∅; radio := true; checked := is_checked; visible := true |}.

(** A field container of class form-input with one empty error element. *)
Definition field (d : gmap string JSValue) (ins : list Control) (sel : list JSValue) : Element :=
  {| classes := ["form-input"]; edata := d; inputs := ins; textareas := [];
     selects := sel; errors := [""] |}.

Definition page (cls : list string) (ns : list Element) : State :=
  {| form := {| formClasses := cls; inModal := false; nodes := ns |}; log := [] |}.

Definition empty_text_field : Element := field (required_field "text") [text_input "" ∅] [].
Definition plain_text_field : Element := field (required_field "text") [text_input "abc" ∅] [].
Definition unbounded_length_field : Element :=
  field (required_field "text")
        [text_input "abc" (<["validation-condition" := JSStr "length"]> ∅)] [].
Definition valid_email_field : Element :=
  field (required_field "email") [text_input "a@b.com" ∅] [].
Definition select_field (value : JSValue) : Element :=
  field (required_field "select") [] [value].
Definition unchecked_radio_field : Element :=
  field (required_field "radio") [radio_input false; radio_input false] [].
Definition custom_text_field : Element :=
  field (<["validation-text" := JSStr "X"]> (required_field "text")) [text_input "" ∅] [].

(** ** Vocabulary of the further properties *)

(** [$field.data('validation') === DEFAULTS.requiredToValidate] *)
Definition is_required (e : Element) : bool :=
  JS.strict_eq (data (edata e) "validation") (JSStr DEFAULTS.requiredToValidate).

(** What [validateField] decides for a field: [None] when the field passes,
    the text handed to [throwError] when it fails. *)
Definition verdict (v : Validator) (e : Element) : JSResult (option JSValue) :=
  let* p := fieldParams v e in
  if negb (JS.truthy (valueLength p)) then
    let* m := prop (lang_table (lang (options v))) emptyField in
    Val (Some m)
  else if negb (JS.truthy (condition p)) then
    Val (Some (shown_text e (errorText p)))
  else Val None.

(** The state in which the field at [i] has passed, and the one in which
    it has failed with the text [t]. *)
Definition passed (s : State) : State :=
  {| form := form_addClass DEFAULTS.formIsValid (form s); log := log s |}.
Definition failed (i : nat) (e : Element) (t : JSValue) (s : State) : State :=
  {| form := with_node i (marked t e) (form s); log := log s |}.

(** The loop of [validateAllFields] read off the list of elements: the
    elements in document order, the classes of the form so far; the loop
    stops at the first field whose evaluation throws. *)
Fixpoint eval_list (v : Validator) (cls : list string) (l : list Element)
    : list Element * list string * option JSError :=
  match l with
  | [] => ([], cls, None)
  | e :: l' =>
      if fieldsSelector (options v) e && is_required e then
        match verdict v e with
        | Val (Some t) =>
            let '(l2, cls2, err) := eval_list v cls l' in (marked t e :: l2, cls2, err)
        | Val None =>
            let '(l2, cls2, err) := eval_list v (addClass DEFAULTS.formIsValid cls) l' in
            (e :: l2, cls2, err)
        | Exn x => (e :: l', cls, Some x)
        end
      else
        let '(l2, cls2, err) := eval_list v cls l' in (e :: l2, cls2, err)
  end.

(** What [removeIncorrectState] does to one element. *)
Definition reset_elem (v : Validator) (e : Element) : Element :=
  if fieldsSelector (options v) e
  then with_classes (removeClass DEFAULTS.incorrect) e
  else e.

(** The field is one that a pass evaluates. *)
Definition evaluated_field (v : Validator) (e : Element) : bool :=
  fieldsSelector (options v) e && is_required e.

Definition field_passes (v : Validator) (e : Element) : bool :=
  evaluated_field v e &&
  match verdict v e with Val None => true | _ => false end.
Definition field_fails (v : Validator) (e : Element) : bool :=
  evaluated_field v e &&
  match verdict v e with Val (Some _) => true | _ => false end.

(** The control that [validateTextField] reads: the first input, or the
    first textarea when the field has no input. *)
Definition text_control (e : Element) : option Control :=
  match inputs e with
  | [] => head (textareas e)
  | c :: _ => Some c
  end.

(** The length of the value of a control, as a number. *)
Definition value_length (c : Control) : Z := Z.of_nat (String.length (val c)).

(** The value, when it is a number, is an integer of magnitude below 2^53:
    one that JavaScript holds exactly and prints digit by digit. *)
Definition safe_integer (x : JSValue) : bool :=
  match x with
  | JSNum k => Z.abs k <? 2 ^ 53
  | _ => true
  end.

(** The types for which [validateField] has a case. *)
Definition evaluated_types : list string :=
  [DEFAULTS.textType; DEFAULTS.phoneType; DEFAULTS.emailType;
   DEFAULTS.radioType; DEFAULTS.selectType].

(** What the loop of [validateAllFields] does to one element when it does
    not throw. *)
Definition eval_elem (v : Validator) (e : Element) : Element :=
  if evaluated_field v e then
    match verdict v e with
    | Val (Some t) => marked t e
    | _ => e
    end
  else e.

(** An element outside the configured selector that carries the incorrect
    marker. *)
Definition stray_marker (v : Validator) (e : Element) : bool :=
  negb (fieldsSelector (options v) e) && hasClass DEFAULTS.incorrect (classes e).

(** The settings of the requests sent, and the warnings, among the
    events. *)
Definition requests (evs : list Event) : list (gmap string JSValue) :=
  omap (fun ev => match ev with AjaxSent o => Some o | _ => None end) evs.
Definition warnings (evs : list Event) : list string :=
  omap (fun ev => match ev with Warned msg => Some msg | _ => None end) evs.

(** The configured selector does not look at the incorrect marker nor at
    the texts of the error elements. *)
Definition stable_selector (v : Validator) : Prop :=
  forall e e' : Element,
    same_markup e e' ->
    (forall c, c <> DEFAULTS.incorrect -> hasClass c (classes e') = hasClass c (classes e)) ->
    fieldsSelector (options v) e' = fieldsSelector (options v) e.

(** *** The handlers that [init] binds *)

(** The handler of click and tap on the trigger: [e.preventDefault()],
    then [runFormValidation()]. *)
Definition on_trigger_click (v : Validator) : M unit := runFormValidation v.

(** The handler of hidden.bs.modal on the enclosing modal. *)
Definition on_modal_hidden (v : Validator) : M unit := removeIncorrectState v.

(** The handler of click and tap on body; [clickedOnForm] tells whether
    the target of the event has the form among its ancestors. *)
Definition on_body_click (v : Validator) (clickedOnForm : bool) : M unit :=
  if negb clickedOnForm then removeIncorrectState v else ret tt.

(** Two elements that differ at most in the incorrect marker and in the
    texts of their error elements. *)
Definition akin (e e' : Element) : Prop :=
  same_markup e e' /\
  forall c, c <> DEFAULTS.incorrect -> hasClass c (classes e') = hasClass c (classes e).

(** None of the three hooks is a function. *)
Definition no_function_hook (v : Validator) : Prop :=
  is_function (beforeValidation (options v)) = false /\
  is_function (onValid (options v)) = false /\
  is_function (afterValidation (options v)) = false.

Definition is_uncallable (callback : Callback) : bool :=
  match callback with CbNotCallable => true | _ => false end.

(** The warning of [checkAndRunCallback], given or not. *)
Definition warning_if (b : bool) : list string :=
  if b then ["Callback should be a function."] else [].

(** *** Strings and the pattern *)

(** The string holds the character [@]. *)
Fixpoint has_at (s : string) : bool :=
  match s with
  | EmptyString => false
  | String c s' => Ascii.eqb c "@" || has_at s'
  end.

Fixpoint map_string (f : ascii -> ascii) (s : string) : string :=
  match s with
  | EmptyString => EmptyString
  | String c s' => String (f c) (map_string f s')
  end.

(** The upper-case and lower-case forms of the letters a to z. *)
Definition to_upper (c : ascii) : ascii :=
  if Regex.in_range "a" "z" c then ascii_of_nat (nat_of_ascii c - 32) else c.
Definition to_lower (c : ascii) : ascii :=
  if Regex.in_range "A" "Z" c then ascii_of_nat (nat_of_ascii c + 32) else c.

(** Every character class of the expression gives the same answer on a
    character and on its image under [f]; decided over the 256
    characters. *)
Fixpoint invariantb (f : ascii -> ascii) (r : Regex.regex) : bool :=
  match r with
  | Regex.Fail | Regex.Eps => true
  | Regex.Class p =>
      forallb (fun n => Bool.eqb (p (f (ascii_of_nat n))) (p (ascii_of_nat n))) (seq 0 256)
  | Regex.Alt r1 r2 | Regex.Seq r1 r2 => invariantb f r1 && invariantb f r2
  | Regex.Star r1 => invariantb f r1
  end.

(** *** More sample forms *)

Definition french_validator : Validator := {| options := extend_defaults french_options |}.

(** A control with the condition length and the given bounds. *)
Definition bounded_input (value : string) (bounds : gmap string JSValue) : Control :=
  text_input value (<["validation-condition" := JSStr "length"]> bounds).

Definition exact_length_field : Element :=
  field (required_field "text")
        [bounded_input "abcd" (<["length" := JSNum 3]> (<["max-length" := JSNum 9]> ∅))] [].
Definition min_max_field : Element :=
  field (required_field "text")
        [bounded_input "abcd" (<["min-length" := JSNum 3]> (<["max-length" := JSNum 5]> ∅))] [].
Definition max_only_field : Element :=
  field (required_field "text") [bounded_input "abcd" (<["max-length" := JSNum 3]> ∅)] [].
Definition unreadable_bound_field : Element :=
  field (required_field "text") [bounded_input "abc" (<["length" := JSStr "three"]> ∅)] [].
Definition equal_field : Element :=
  field (required_field "text")
        [text_input "123" (<["validation-condition" := JSStr "equal"]>
                             (<["equal" := JSNum 123]> ∅))] [].
Definition phone_field : Element :=
  field (required_field "phone") [text_input "+1 555 0100" ∅] [].
Definition checkbox_field : Element := field (required_field "checkbox") [] [].
Definition controlless_field : Element := field (required_field "text") [] [].
Definition optional_field : Element :=
  field (<["validation-type" := JSStr "text"]> ∅) [text_input "" ∅] [].

(** A validator whose hooks are not callable. *)
Definition misused_validator : Validator :=
  {| options := extend_defaults
       {| u_modal := None; u_fieldsSelector := None; u_removeErrorOnFocusOut := None;
          u_ajax := None; u_lang := None;
          u_beforeValidation := Some CbNotCallable;
          u_afterValidation := Some CbNotCallable;
          u_onValid := Some CbNotCallable |} |}.

(** * Properties *)

(** ** JavaScript values and the pattern, on examples *)

Example parseInt_ex :
  JS.parseInt (JSStr " 12px") = JSNum 12 /\ JS.parseInt (JSNum 7) = JSNum 7 /\
  JS.parseInt (JSStr "abc") = JSNaN /\ JS.parseInt JSUndefined = JSNaN /\
  JS.parseInt (JSStr "-3") = JSNum (-3).
Proof. repeat split; reflexivity. Qed.

Example string_is_zero_ex :
  map JS.string_is_zero ["0"; "00"; " "; ""; "0.0"; "-0"; "0x0"; "0e5"; ".0"; "1e-400"]
    = [true; true; true; true; true; true; true; true; true; true] /\
  map JS.string_is_zero ["1"; "a"; "0x"; "."; "0a"; "1e-300"; "e0"; "0.0.0"; "010"; "-"]
    = [false; false; false; false; false; false; false; false; false; false].
Proof. split; vm_compute; reflexivity. Qed.

Example validateEmail_ex :
  map validateEmail [JSStr "a@b.com"; JSStr "John.Doe@Mail.Example.ORG";
                     JSStr "x@[10.0.0.255]"; JSStr "!! @1.2.3.4"] = [true; true; true; true] /\
  map validateEmail [JSStr "not-an-email"; JSStr ""; JSStr "a@b"; JSStr "a@b.c";
                     JSStr "a b@c.de"; JSStr "x@256.1.1.1111"; JSUndefined]
    = [false; false; false; false; false; false; false].
Proof. split; vm_compute; reflexivity. Qed.


(** ** jQuery sets *)

Section Sets.
Variable p : Element -> bool.

Lemma find_from_length_0 (n : nat) (l : list Element) :
  length (find_from p n l) = 0%nat <-> (forall e, e ∈ l -> p e = false).
Proof.
  revert n; induction l as [|e l IH]; intros n; simpl.
  - split; [intros _ e He; inversion He | reflexivity].
  - destruct (p e) eqn:Hp; simpl.
    + split; [discriminate|].
      intros H. specialize (H e (list_elem_of_here _ _)). congruence.
    + rewrite IH. split.
      * intros H x Hx. apply elem_of_cons in Hx as [->|Hx]; auto.
      * intros H x Hx. apply H. now apply list_elem_of_further.
Qed.

(** Changing every element of [find p] is a map that changes the
    matching elements. *)
Lemma update_find_from (g : Element -> Element) (pre l : list Element) :
  foldl (fun ns i => alter g i ns) (pre ++ l) (find_from p (length pre) l)
  = pre ++ map (fun e => if p e then g e else e) l.
Proof.
  revert pre; induction l as [|e l IH]; intros pre; simpl; [reflexivity|].
  replace (S (length pre)) with (length (pre ++ [e])) by (rewrite length_app; simpl; lia).
  destruct (p e) eqn:Hp; simpl.
  - rewrite alter_app_r_alt by lia. rewrite Nat.sub_diag. simpl.
    replace (length (pre ++ [e])) with (length (pre ++ [g e]))
      by (rewrite !length_app; reflexivity).
    rewrite (cons_middle (g e)), app_assoc, IH, <- app_assoc. reflexivity.
  - rewrite (cons_middle e), app_assoc, IH, <- app_assoc. reflexivity.
Qed.

Lemma update_all_find (g : Element -> Element) (f : Form) :
  nodes (update_all g (find p f) f) = map (fun e => if p e then g e else e) (nodes f).
Proof. apply (update_find_from g [] (nodes f)). Qed.

End Sets.

Lemma update_all_one (g : Element -> Element) (i : nat) (f : Form) :
  update_all g [i] f
  = {| formClasses := formClasses f; inModal := inModal f; nodes := alter g i (nodes f) |}.
Proof. reflexivity. Qed.

Lemma hasClass_removeClass (c d : string) (cls : list string) :
  hasClass c (removeClass d cls) = hasClass c cls && negb (String.eqb c d).
Proof.
  unfold hasClass, removeClass. induction cls as [|x cls IH]; [reflexivity|].
  rewrite filter_cons. destruct (decide (x <> d)) as [Hne|Heq]; simpl.
  - rewrite IH. destruct (String.eqb c x) eqn:Hcx; [|reflexivity].
    apply String.eqb_eq in Hcx as ->. simpl.
    destruct (String.eqb x d) eqn:Hxd; [apply String.eqb_eq in Hxd; contradiction|].
    reflexivity.
  - assert (x = d) as -> by (destruct (decide (x = d)); [assumption|contradiction]).
    rewrite IH. destruct (String.eqb c d); simpl; [|reflexivity].
    now rewrite andb_false_r.
Qed.

Lemma hasClass_addClass (c d : string) (cls : list string) :
  hasClass c (addClass d cls) = hasClass c cls || String.eqb c d.
Proof.
  unfold addClass. destruct (hasClass d cls) eqn:Hd.
  - destruct (String.eqb c d) eqn:Hcd; [|now rewrite orb_false_r].
    apply String.eqb_eq in Hcd as ->. now rewrite Hd.
  - unfold hasClass. rewrite existsb_app. simpl. now rewrite orb_false_r.
Qed.

(** ** formIsValid *)

(** C1.  [formIsValid] returns true exactly when no element of the form
    carries the incorrect marker and the form carries the valid flag; it
    returns false exactly when some element carries the marker or the flag
    is absent. *)
Theorem formIsValid_iff (f : Form) :
  (formIsValid f = true <->
     (forall e, e ∈ nodes f -> hasClass DEFAULTS.incorrect (classes e) = false)
     /\ hasClass DEFAULTS.formIsValid (formClasses f) = true)
  /\
  (formIsValid f = false <->
     (exists e, e ∈ nodes f /\ hasClass DEFAULTS.incorrect (classes e) = true)
     \/ hasClass DEFAULTS.formIsValid (formClasses f) = false).
Proof.
  assert (Hiff : formIsValid f = true <->
     (forall e, e ∈ nodes f -> hasClass DEFAULTS.incorrect (classes e) = false)
     /\ hasClass DEFAULTS.formIsValid (formClasses f) = true).
  { unfold formIsValid, find. rewrite andb_true_iff.
    rewrite <- (find_from_length_0 (class_selector DEFAULTS.incorrect) 0 (nodes f)).
    simpl. rewrite negb_true_iff, negb_false_iff, Z.eqb_eq. split.
    - intros [H1 H2]. split; [lia | assumption].
    - intros [H1 H2]. split; [lia | assumption]. }
  split; [exact Hiff|].
  rewrite <- not_true_iff_false, Hiff. split.
  - intros Hn. destruct (hasClass DEFAULTS.formIsValid (formClasses f)) eqn:Hflag; [|now right].
    left. destruct (existsb (class_selector DEFAULTS.incorrect) (nodes f)) eqn:Hex.
    + apply existsb_exists in Hex as (e & He & Hc).
      exists e. split; [now apply list_elem_of_In | exact Hc].
    + exfalso. apply Hn. split; [|reflexivity]. intros e He.
      apply not_true_iff_false. intros Hc.
      assert (existsb (class_selector DEFAULTS.incorrect) (nodes f) = true) as Hex'
        by (apply existsb_exists; exists e; split; [now apply list_elem_of_In | exact Hc]).
      congruence.
  - intros [(e & He & Hc) | Hflag] [Hall Hf]; [|congruence].
    specialize (Hall e He). congruence.
Qed.

(** ** removeIncorrectState *)

Lemma removeIncorrectState_eq (v : Validator) (s : State) :
  removeIncorrectState v s =
  Returned tt
    {| form := {| formClasses := formClasses (form s); inModal := inModal (form s);
                  nodes := map (fun e => if fieldsSelector (options v) e
                                         then with_classes (removeClass DEFAULTS.incorrect) e
                                         else e) (nodes (form s)) |};
       log := log s |}.
Proof.
  unfold removeIncorrectState, bind, get_form, modify_form. simpl.
  rewrite <- update_all_find. reflexivity.
Qed.

(** C10.  [removeIncorrectState] returns, and the state it leaves differs
    from the one it found only in the class lists of the elements matching
    the configured selector, from which the incorrect marker is gone: the
    log, the classes of the form (the valid flag among them), the number and
    order of the elements, and for each element its data, controls and the
    texts of its error elements are as before; an element that does not
    match keeps its classes, and a matching one keeps every other class. *)
Theorem removeIncorrectState_frame (v : Validator) (s : State) :
  exists s',
    removeIncorrectState v s = Returned tt s' /\
    log s' = log s /\
    formClasses (form s') = formClasses (form s) /\
    inModal (form s') = inModal (form s) /\
    length (nodes (form s')) = length (nodes (form s)) /\
    forall i e, nodes (form s) !! i = Some e ->
      exists e', nodes (form s') !! i = Some e' /\
        classes e' = (if fieldsSelector (options v) e
                      then removeClass DEFAULTS.incorrect (classes e) else classes e) /\
        (forall c, c <> DEFAULTS.incorrect -> hasClass c (classes e') = hasClass c (classes e)) /\
        errors e' = errors e /\ edata e' = edata e /\
        inputs e' = inputs e /\ textareas e' = textareas e /\ selects e' = selects e.
Proof.
  eexists. split; [apply removeIncorrectState_eq|]. simpl.
  repeat split; [now rewrite length_map|].
  intros i e Hi. rewrite list_lookup_fmap, Hi. simpl.
  eexists. split; [reflexivity|].
  destruct (fieldsSelector (options v) e); simpl; repeat split; try reflexivity.
  intros c Hc. rewrite hasClass_removeClass.
  destruct (String.eqb c DEFAULTS.incorrect) eqn:E; [apply String.eqb_eq in E; contradiction|].
  apply andb_true_r.
Qed.

(** ** One field *)

Lemma shown_text_cases (e : Element) (t : JSValue) :
  shown_text e t =
  match data (edata e) DEFAULTS.textDataName with
  | JSStr x => if String.eqb x "" then t else JSStr x
  | _ => t
  end.
Proof.
  unfold shown_text, JS.and.
  destruct (data (edata e) DEFAULTS.textDataName) as [| |[]|n| |x]; simpl; try reflexivity.
  - destruct (n =? 0)%Z eqn:E; simpl; rewrite ?E; reflexivity.
  - destruct x as [|a x]; reflexivity.
Qed.

Lemma marked_str (m : string) (e : Element) : marked (JSStr m) e = incorrect_with m e.
Proof. reflexivity. Qed.

Lemma update_one_lookup (g : Element -> Element) (i : nat) (e : Element) (f : Form) :
  nodes f !! i = Some e -> update_all g [i] f = with_node i (g e) f.
Proof.
  intros H. unfold update_all, with_node. simpl. f_equal.
  apply list_eq. intros j. destruct (decide (i = j)) as [->|Hne].
  - rewrite list_lookup_alter_eq, H. simpl.
    symmetry. apply list_lookup_insert_eq. now apply lookup_lt_Some in H.
  - now rewrite list_lookup_alter_ne, list_lookup_insert_ne.
Qed.

Lemma throwError_eq (i : nat) (t : JSValue) (s : State) :
  throwError i t s = Returned tt {| form := update_all (marked t) [i] (form s); log := log s |}.
Proof.
  unfold throwError, bind, modify_form, update_all. simpl.
  now rewrite list_alter_alter_eq.
Qed.

Lemma checkFieldValidness_eq (v : Validator) (i : nat) (c t n : JSValue) (s : State) :
  checkFieldValidness v i c t n s =
  if negb (JS.truthy n) then
    match lang_table (lang (options v)) with
    | Some l => Returned tt {| form := update_all (marked (emptyField l)) [i] (form s);
                               log := log s |}
    | None => Thrown TypeError s
    end
  else if negb (JS.truthy c) then
    Returned tt {| form := update_all (marked (shown_text (field_at (form s) i) t)) [i] (form s);
                   log := log s |}
  else Returned tt {| form := form_addClass DEFAULTS.formIsValid (form s); log := log s |}.
Proof.
  unfold checkFieldValidness, bind, get_form. simpl.
  destruct (JS.truthy n); simpl.
  - destruct (JS.truthy c); simpl; [reflexivity|].
    now rewrite throwError_eq.
  - unfold lift, prop. destruct (lang_table (lang (options v))); [|reflexivity].
    now rewrite throwError_eq.
Qed.

Lemma validateField_eq (v : Validator) (i : nat) (s : State) :
  validateField v i s =
  match fieldParams v (field_at (form s) i) with
  | Val p => checkFieldValidness v i (condition p) (errorText p) (valueLength p) s
  | Exn e => Thrown e s
  end.
Proof.
  unfold validateField, bind, get_form, lift.
  destruct (fieldParams v (field_at (form s) i)); reflexivity.
Qed.

Lemma field_at_lookup (f : Form) (i : nat) (e : Element) :
  nodes f !! i = Some e -> field_at f i = e.
Proof. unfold field_at. now intros ->. Qed.

Lemma supported_lang (v : Validator) :
  supported v ->
  exists l, lang_table (lang (options v)) = Some l /\ (l = en \/ l = ru).
Proof. intros [H|H]; rewrite H; [exists en | exists ru]; auto. Qed.

Lemma emptyField_string (l : Lang) :
  l = en \/ l = ru -> exists m, emptyField l = JSStr m.
Proof. intros [->| ->]; eexists; reflexivity. Qed.

(** C4.  In a supported locale, [checkFieldValidness] on a field whose
    value length is falsy marks the field incorrect and sets the text of its
    error elements to the locale's emptyField message, whatever the custom
    text, the condition and the computed error text are.  The custom text
    is shown on one path only: the length is truthy and the condition is
    falsy; there it replaces the computed text when it is a string that is
    not empty.  When length and condition are both truthy the field is left
    as it is and the form gets the valid flag. *)
Theorem checkFieldValidness_precedence
    (v : Validator) (i : nat) (e : Element) (s : State) (c t n : JSValue) :
  supported v ->
  nodes (form s) !! i = Some e ->
  exists l m,
    lang_table (lang (options v)) = Some l /\ emptyField l = JSStr m /\
    (JS.truthy n = false ->
       checkFieldValidness v i c t n s =
       Returned tt {| form := with_node i (incorrect_with m e) (form s); log := log s |}) /\
    (JS.truthy n = true -> JS.truthy c = false ->
       checkFieldValidness v i c t n s =
       Returned tt {| form := with_node i (marked (shown_text e t) e) (form s); log := log s |}
       /\ (forall x, data (edata e) DEFAULTS.textDataName = JSStr x -> x <> "" ->
             marked (shown_text e t) e = incorrect_with x e)
       /\ ((forall x, data (edata e) DEFAULTS.textDataName = JSStr x -> x = "") ->
             shown_text e t = t)) /\
    (JS.truthy n = true -> JS.truthy c = true ->
       checkFieldValidness v i c t n s =
       Returned tt {| form := form_addClass DEFAULTS.formIsValid (form s); log := log s |}).
Proof.
  intros Hs Hi. destruct (supported_lang v Hs) as (l & Hl & Hen).
  destruct (emptyField_string l Hen) as (m & Hm).
  exists l, m. split; [assumption|]. split; [assumption|]. split; [|split].
  - intros Hn. rewrite checkFieldValidness_eq, Hn, Hl. simpl.
    now rewrite (update_one_lookup _ i e), Hm.
  - intros Hn Hc. split; [|split].
    + rewrite checkFieldValidness_eq, Hn, Hc. simpl.
      now rewrite (field_at_lookup _ _ _ Hi), (update_one_lookup _ i e).
    + intros x Hx Hne. rewrite shown_text_cases, Hx.
      destruct (String.eqb x "") eqn:E; [apply String.eqb_eq in E; contradiction|].
      reflexivity.
    + intros Hx. rewrite shown_text_cases.
      destruct (data (edata e) DEFAULTS.textDataName) as [| | | | |x]; try reflexivity.
      now rewrite (Hx x eq_refl).
  - intros Hn Hc. rewrite checkFieldValidness_eq, Hn, Hc. reflexivity.
Qed.

(** ** What evaluating fields can change *)

Lemma evolved_refl (s : State) : evolved s s.
Proof.
  split; auto. apply Forall_Forall2_diag, Forall_forall.
  intros e _. repeat split.
Qed.

Lemma evolved_update (g : Element -> Element) (i : nat) (s0 s : State) :
  (forall e, same_markup e (g e)) ->
  evolved s0 s ->
  evolved s0 {| form := update_all g [i] (form s); log := log s |}.
Proof.
  intros Hg [H1 H2 H3 H4]. split; simpl; auto.
  apply Forall2_alter_r; [assumption|].
  intros x y _ _ (Ha & Hb & Hc & Hd). destruct (Hg y) as (Ha' & Hb' & Hc' & Hd').
  repeat split; congruence.
Qed.

Lemma evolved_flag (s0 s : State) :
  evolved s0 s ->
  evolved s0 {| form := form_addClass DEFAULTS.formIsValid (form s); log := log s |}.
Proof.
  intros [H1 H2 H3 H4]. split; simpl; auto.
  intros _. rewrite hasClass_addClass. apply orb_true_r.
Qed.

Lemma same_markup_marked (t : JSValue) (e : Element) : same_markup e (marked t e).
Proof. repeat split. Qed.

Lemma checkFieldValidness_evolved (v : Validator) (i : nat) (c t n : JSValue) (s0 s : State) :
  evolved s0 s -> evolved s0 (final (checkFieldValidness v i c t n s)).
Proof.
  intros H. rewrite checkFieldValidness_eq.
  destruct (JS.truthy n); simpl.
  - destruct (JS.truthy c); simpl.
    + now apply evolved_flag.
    + apply evolved_update; [apply same_markup_marked | assumption].
  - destruct (lang_table (lang (options v))); simpl; [|assumption].
    apply evolved_update; [apply same_markup_marked | assumption].
Qed.

Lemma validateField_evolved (v : Validator) (i : nat) (s0 s : State) :
  evolved s0 s -> evolved s0 (final (validateField v i s)).
Proof.
  intros H. rewrite validateField_eq.
  destruct (fieldParams v (field_at (form s) i)); simpl; [|assumption].
  now apply checkFieldValidness_evolved.
Qed.

Lemma validate_if_required_evolved (v : Validator) (i : nat) (s0 s : State) :
  evolved s0 s -> evolved s0 (final (validate_if_required v i s)).
Proof.
  intros H. unfold validate_if_required, bind, get_form.
  destruct (JS.strict_eq _ _); [now apply validateField_evolved | assumption].
Qed.

Lemma each_evolved (v : Validator) (set : list nat) (s0 s : State) :
  evolved s0 s -> evolved s0 (final (each set (validate_if_required v) s)).
Proof.
  revert s. induction set as [|i set IH]; intros s H; simpl; [assumption|].
  unfold bind. pose proof (validate_if_required_evolved v i s0 s H) as H1.
  destruct (validate_if_required v i s) as [[] s1|e s1]; simpl in *; auto.
Qed.

Lemma validateAllFields_evolved (v : Validator) (s : State) :
  evolved s (final (validateAllFields v s)).
Proof.
  unfold validateAllFields, bind, get_form.
  apply each_evolved, evolved_refl.
Qed.

(** *** When evaluation returns *)

Lemma has_control_same_markup (e e' : Element) :
  same_markup e e' -> has_control e' = has_control e.
Proof. intros (H1 & H2 & H3 & H4). unfold has_control. now rewrite H1, H2, H3. Qed.

Lemma text_condition_returns (l : Lang) (c : Control) :
  l = en \/ l = ru -> exists ce, text_condition (Some l) c = Val ce.
Proof.
  intros Hl. unfold text_condition.
  repeat match goal with
         | |- context [if ?b then _ else _] => destruct b
         end;
    destruct Hl as [-> | ->]; simpl; eexists; reflexivity.
Qed.

Lemma validateTextField_returns (v : Validator) (e : Element) :
  supported v ->
  negb (is_nil (inputs e)) || negb (is_nil (textareas e)) = true ->
  exists p, validateTextField v e = Val p.
Proof.
  intros Hs Hc. destruct (supported_lang v Hs) as (l & Hl & Hen).
  unfold validateTextField. rewrite Hl.
  destruct (inputs e) as [|c cs].
  - destruct (textareas e) as [|c cs]; [discriminate|].
    destruct (text_condition_returns l c Hen) as (ce & ->). simpl. eexists; reflexivity.
  - destruct (text_condition_returns l c Hen) as (ce & ->). simpl. eexists; reflexivity.
Qed.

Lemma fieldParams_returns (v : Validator) (e : Element) :
  supported v -> has_control e = true -> exists p, fieldParams v e = Val p.
Proof.
  intros Hs Hc. destruct (supported_lang v Hs) as (l & Hl & Hen).
  unfold fieldParams, has_control in *. rewrite Hl. simpl.
  destruct (JS.strict_eq _ (JSStr DEFAULTS.textType)); simpl in Hc.
  { now apply validateTextField_returns. }
  destruct (JS.strict_eq _ (JSStr DEFAULTS.phoneType)); simpl in Hc.
  { destruct (validateTextField_returns v e Hs Hc) as (p & ->). simpl. eexists; reflexivity. }
  destruct (JS.strict_eq _ (JSStr DEFAULTS.emailType)).
  { unfold validateEmailField. destruct (inputs e); [discriminate|]. simpl.
    eexists; reflexivity. }
  destruct (JS.strict_eq _ (JSStr DEFAULTS.radioType)); [eexists; reflexivity|].
  destruct (JS.strict_eq _ (JSStr DEFAULTS.selectType)); eexists; reflexivity.
Qed.

Lemma validateField_returns (v : Validator) (i : nat) (s : State) :
  supported v -> has_control (field_at (form s) i) = true ->
  exists s', validateField v i s = Returned tt s'.
Proof.
  intros Hs Hc. rewrite validateField_eq.
  destruct (fieldParams_returns v _ Hs Hc) as (p & ->).
  rewrite checkFieldValidness_eq. destruct (supported_lang v Hs) as (l & -> & _).
  destruct (negb (JS.truthy (valueLength p))); [eexists; reflexivity|].
  destruct (negb (JS.truthy (condition p))); eexists; reflexivity.
Qed.

Lemma controls_present_at (f : Form) (i : nat) :
  controls_present f -> has_control (field_at f i) = true.
Proof.
  intros H. unfold field_at. destruct (nodes f !! i) as [e|] eqn:E; [|reflexivity].
  simpl. eapply (proj1 (Forall_lookup _ _) H); eassumption.
Qed.

Lemma controls_present_evolved (s0 s : State) :
  evolved s0 s -> controls_present (form s0) -> controls_present (form s).
Proof.
  intros [_ _ _ H] Hc. unfold controls_present in *.
  induction H as [|e e' l l' He H IH]; [constructor|].
  inversion Hc; subst. constructor; [|auto].
  now rewrite (has_control_same_markup e e').
Qed.

Lemma each_returns (v : Validator) (set : list nat) (s : State) :
  supported v -> controls_present (form s) ->
  exists s', each set (validate_if_required v) s = Returned tt s'.
Proof.
  intros Hs. revert s. induction set as [|i set IH]; intros s Hc; simpl.
  - eexists; reflexivity.
  - unfold bind.
    assert (exists s1, validate_if_required v i s = Returned tt s1) as (s1 & H1).
    { unfold validate_if_required, bind, get_form.
      destruct (JS.strict_eq _ _); [|eexists; reflexivity].
      apply validateField_returns; [assumption | now apply controls_present_at]. }
    pose proof (validate_if_required_evolved v i s s (evolved_refl s)) as He.
    rewrite H1 in *. simpl in He.
    apply IH. eapply controls_present_evolved; eassumption.
Qed.

Lemma validateAllFields_returns (v : Validator) (s : State) :
  supported v -> controls_present (form s) ->
  exists s', validateAllFields v s = Returned tt s'.
Proof. intros Hs Hc. unfold validateAllFields, bind, get_form. now apply each_returns. Qed.

(** ** Hooks and the order of a pass *)

Lemma checkAndRunCallback_eq (h : Hook) (cb : Callback) (s : State) :
  hook_returns cb (form s) = true ->
  checkAndRunCallback h cb s =
  Returned tt {| form := hook_effect cb (form s); log := log s ++ hook_events h cb (form s) |}.
Proof.
  destruct cb; simpl; intros H; try reflexivity.
  - unfold ret. destruct s as [d lg]. simpl. now rewrite app_nil_r.
  - unfold bind, get_form, emit, modify_form. simpl.
    destruct (raises (form s)); [discriminate|reflexivity].
Qed.

Lemma checkAndRunCallback_throws (h : Hook) (cb : Callback) (s : State) :
  hook_returns cb (form s) = false ->
  exists x, checkAndRunCallback h cb s =
    Thrown x {| form := hook_effect cb (form s); log := log s ++ hook_events h cb (form s) |}.
Proof.
  destruct cb; simpl; intros H; try discriminate.
  unfold bind, get_form, emit, modify_form. simpl.
  destruct (raises (form s)) as [x|]; [|discriminate]. now exists x.
Qed.

(** A hook and what follows it: what follows runs when the hook returns. *)
Lemma hook_then (h : Hook) (cb : Callback) (k : M unit) (s : State) :
  let s' := {| form := hook_effect cb (form s); log := log s ++ hook_events h cb (form s) |} in
  final ((checkAndRunCallback h cb;; k) s)
  = if hook_returns cb (form s) then final (k s') else s'.
Proof.
  intros s'. unfold bind. destruct (hook_returns cb (form s)) eqn:Hr.
  - now rewrite checkAndRunCallback_eq.
  - destruct (checkAndRunCallback_throws h cb s Hr) as (x & ->). reflexivity.
Qed.

Lemma hook_last (h : Hook) (cb : Callback) (s : State) :
  final (checkAndRunCallback h cb s)
  = {| form := hook_effect cb (form s); log := log s ++ hook_events h cb (form s) |}.
Proof.
  destruct (hook_returns cb (form s)) eqn:Hr.
  - now rewrite checkAndRunCallback_eq.
  - destruct (checkAndRunCallback_throws h cb s Hr) as (x & ->). reflexivity.
Qed.

Lemma ajax_eq (a : Ajax) (s : State) :
  match a with AjaxSettings o => emit (AjaxSent o) | AjaxFalsy => ret tt end s
  = Returned tt {| form := form s; log := log s ++ ajax_events a |}.
Proof.
  destruct s as [d0 l0]. destruct a; simpl; unfold emit, ret; simpl;
    [reflexivity | now rewrite app_nil_r].
Qed.

Lemma sendIfValidated_unfold (v : Validator) (a : Ajax) :
  sendIfValidated v a =
  (checkAndRunCallback BeforeValidation (beforeValidation (options v));;
   do d <- get_form;
   (if formIsValid d
    then checkAndRunCallback OnValid (onValid (options v));;
         match ajax_or_option v a with
         | AjaxSettings o => emit (AjaxSent o)
         | AjaxFalsy => ret tt
         end
    else ret tt);;
   checkAndRunCallback AfterValidation (afterValidation (options v))).
Proof. unfold sendIfValidated, ajax_or_option. destruct a; reflexivity. Qed.

(** What [sendIfValidated] logs, whatever its hooks do: it stops at the
    first hook that throws. *)
Lemma sendIfValidated_log (v : Validator) (a : Ajax) (s : State) :
  log (final (sendIfValidated v a s)) = log s ++ send_events v a (form s).
Proof.
  rewrite sendIfValidated_unfold, hook_then. unfold send_events.
  destruct (hook_returns (beforeValidation (options v)) (form s));
    [|cbn [log]; now rewrite app_nil_r].
  unfold bind at 1, get_form at 1. cbn [form log].
  destruct (formIsValid _) eqn:Hvalid.
  - unfold bind at 1. unfold bind at 1.
    destruct (hook_returns (onValid (options v))
                (hook_effect (beforeValidation (options v)) (form s))) eqn:Ho.
    + rewrite checkAndRunCallback_eq by exact Ho. rewrite ajax_eq. cbn [form log].
      rewrite hook_last. cbn [log]. now rewrite <- !app_assoc.
    + destruct (checkAndRunCallback_throws OnValid _
        {| form := hook_effect (beforeValidation (options v)) (form s);
           log := log s ++ hook_events BeforeValidation (beforeValidation (options v)) (form s) |}
        Ho) as (x & ->).
      cbn [final log form]. now rewrite app_nil_r, <- !app_assoc.
  - unfold bind at 1, ret at 1. rewrite hook_last. cbn [log form]. now rewrite <- !app_assoc.
Qed.

(** When the hooks return, so does [sendIfValidated]. *)
Lemma sendIfValidated_eq (v : Validator) (a : Ajax) (s : State) :
  hooks_return v ->
  let o := options v in
  let d1 := hook_effect (beforeValidation o) (form s) in
  let d2 := if formIsValid d1 then hook_effect (onValid o) d1 else d1 in
  sendIfValidated v a s =
  Returned tt
    {| form := hook_effect (afterValidation o) d2;
       log := log s ++ hook_events BeforeValidation (beforeValidation o) (form s)
              ++ (if formIsValid d1
                  then hook_events OnValid (onValid o) d1 ++ ajax_events (ajax_or_option v a)
                  else [])
              ++ hook_events AfterValidation (afterValidation o) d2 |}.
Proof.
  intros Hr o d1 d2. rewrite sendIfValidated_unfold. fold o.
  unfold bind at 1. rewrite checkAndRunCallback_eq by apply Hr. fold d1.
  unfold bind at 1, get_form at 1. cbn [form log].
  unfold bind at 1. subst d2.
  destruct (formIsValid d1).
  - unfold bind at 1. rewrite checkAndRunCallback_eq by apply Hr. cbn [form log].
    rewrite ajax_eq; cbn [form log]; rewrite checkAndRunCallback_eq by apply Hr; cbn [form log];
      rewrite <- !app_assoc; reflexivity.
  - unfold ret at 1. rewrite checkAndRunCallback_eq by apply Hr. cbn [form log].
    rewrite <- !app_assoc. reflexivity.
Qed.

(** A pass is the reset, the evaluation of the fields, and then
    [sendIfValidated], which is where the three hooks are called. *)
Lemma runFormValidation_eq (v : Validator) (s : State) :
  runFormValidation v s =
  match evaluated v s with
  | Returned _ s1 => sendIfValidated v AjaxFalsy s1
  | Thrown e s1 => Thrown e s1
  end.
Proof.
  unfold runFormValidation, evaluated, bind.
  destruct (removeIncorrectState v s) as [[] s0|e s0]; [|reflexivity].
  destruct (validateAllFields v s0) as [[] s1|e s1]; reflexivity.
Qed.

Lemma evaluated_evolved (v : Validator) (s : State) :
  evolved (final (removeIncorrectState v s)) (final (evaluated v s)).
Proof.
  unfold evaluated, bind. rewrite removeIncorrectState_eq. simpl.
  match goal with |- evolved ?s0 _ => pose proof (validateAllFields_evolved v s0) as H end.
  destruct (validateAllFields v _) as [[] s1|e s1]; exact H.
Qed.

Lemma removeIncorrectState_controls (v : Validator) (s : State) :
  controls_present (form s) -> controls_present (form (final (removeIncorrectState v s))).
Proof.
  rewrite removeIncorrectState_eq. unfold controls_present. simpl.
  rewrite !Forall_forall. intros H e He.
  apply list_elem_of_In, in_map_iff in He as (e0 & <- & He0).
  apply list_elem_of_In in He0. specialize (H e0 He0).
  destruct (fieldsSelector (options v) e0); exact H.
Qed.

Lemma evaluated_returns (v : Validator) (s : State) :
  supported v -> controls_present (form s) ->
  exists s1, evaluated v s = Returned tt s1.
Proof.
  intros Hs Hc. pose proof (removeIncorrectState_controls v s Hc) as Hc'.
  unfold evaluated, bind. rewrite removeIncorrectState_eq in *. simpl in Hc'.
  now apply validateAllFields_returns.
Qed.

Lemma calls_app (h : Hook) (l1 l2 : list Event) :
  calls h (l1 ++ l2) = (calls h l1 + calls h l2)%nat.
Proof. unfold calls. now rewrite List.filter_app, length_app. Qed.

Lemma calls_hook_events (h h' : Hook) (cb : Callback) (d : Form) :
  calls h (hook_events h' cb d) = if is_function cb && Hook_eqb h h' then 1%nat else 0%nat.
Proof.
  destruct cb; simpl; try reflexivity; unfold calls; simpl; now destruct (Hook_eqb h h').
Qed.

Lemma calls_ajax_events (h : Hook) (a : Ajax) : calls h (ajax_events a) = 0%nat.
Proof. destruct a; reflexivity. Qed.



(** C2.  The code calls the beforeValidation hook after the fields have
    been evaluated: on a form with one required empty text field, the DOM
    handed to the hook is the one that the evaluation has produced, with the
    field already marked incorrect and showing the emptyField message. *)
Theorem beforeValidation_called_after_evaluation :
  let d1 := {| formClasses := []; inModal := false;
               nodes := [incorrect_with "Fill in the field, please" empty_text_field] |} in
  evaluated hooked_validator (page [] [empty_text_field])
    = Returned tt {| form := d1; log := [] |} /\
  runFormValidation hooked_validator (page [] [empty_text_field])
    = Returned tt {| form := d1;
                     log := [Called BeforeValidation d1; Called AfterValidation d1] |}.
Proof. split; vm_compute; reflexivity. Qed.

(** The same in general: whenever the evaluation of the fields returns,
    the hooks are called afterwards, beforeValidation on the DOM that the
    evaluation has left. *)
Lemma hooks_follow_evaluation (v : Validator) (s s1 : State) (f : Form -> Form) :
  evaluated v s = Returned tt s1 ->
  beforeValidation (options v) = CbFunction f ->
  exists evs, log (final (runFormValidation v s))
              = log s1 ++ Called BeforeValidation (form s1) :: evs.
Proof.
  intros H1 Hf. rewrite runFormValidation_eq, H1, sendIfValidated_log.
  unfold send_events. rewrite Hf. simpl. eexists. reflexivity.
Qed.

(** ** The valid flag across passes *)

(** C3, as stated, fails: after a pass on a form with one valid required
    email field the form carries the valid flag; the reset that starts the
    next pass leaves it, and if the field has gone from the form in between,
    the next pass finds the form valid on the old flag alone and sends the
    request, although it has evaluated no field. *)
Lemma valid_flag_survives_reset :
  let s1 := final (runFormValidation default_validator (page [] [valid_email_field])) in
  hasClass DEFAULTS.formIsValid (formClasses (form s1)) = true /\
  hasClass DEFAULTS.formIsValid
    (formClasses (form (final (removeIncorrectState default_validator s1)))) = true /\
  runFormValidation default_validator (page (formClasses (form s1)) [])
    = Returned tt {| form := form (page ["validated"] []); log := [AjaxSent ∅] |}.
Proof. repeat split; vm_compute; reflexivity. Qed.

(** C3, amended.  The reset that starts a pass removes the incorrect marker
    from every element matching the configured selector and leaves the
    classes of the form as they were; neither the reset nor the evaluation
    of the fields removes the valid flag, so that a flag set before the pass
    is still set when the hooks and the decision start. *)
Theorem reset_clears_markers_only (v : Validator) (s : State) :
  let s1 := final (removeIncorrectState v s) in
  let s2 := final (evaluated v s) in
  (forall i e, nodes (form s) !! i = Some e -> fieldsSelector (options v) e = true ->
     exists e', nodes (form s1) !! i = Some e' /\
                hasClass DEFAULTS.incorrect (classes e') = false) /\
  formClasses (form s1) = formClasses (form s) /\
  (hasClass DEFAULTS.formIsValid (formClasses (form s)) = true ->
   hasClass DEFAULTS.formIsValid (formClasses (form s2)) = true).
Proof.
  intros s1 s2. split; [|split].
  - intros i e Hi Hsel. subst s1. rewrite removeIncorrectState_eq. simpl.
    rewrite list_lookup_fmap, Hi. simpl. rewrite Hsel.
    eexists. split; [reflexivity|]. simpl.
    rewrite hasClass_removeClass. now rewrite String.eqb_refl, andb_false_r.
  - subst s1. now rewrite removeIncorrectState_eq.
  - intros Hflag. subst s2. destruct (evaluated_evolved v s) as [_ _ H _].
    apply H. now rewrite removeIncorrectState_eq.
Qed.

(** ** Text fields *)

(** The condition of a text control that carries no condition attribute,
    or an unknown one, is undefined. *)
Lemma text_condition_undefined (l : option Lang) (c : Control) :
  JS.strict_eq (data (cdata c) DEFAULTS.dataCondition) (JSStr DEFAULTS.length) = false ->
  JS.strict_eq (data (cdata c) DEFAULTS.dataCondition) (JSStr DEFAULTS.equal) = false ->
  text_condition l c = Val (JSUndefined, JSUndefined).
Proof. intros H1 H2. unfold text_condition. now rewrite H1, H2. Qed.

(** In a supported locale, a text field whose first input has a value
    that is not empty and no condition attribute, or an unknown one, is
    marked incorrect; the text shown is the custom text if there is one, and
    is left as it was otherwise. *)
Lemma text_field_without_condition (v : Validator) (i : nat) (e : Element)
    (c : Control) (rest : list Control) (s : State) :
  supported v ->
  nodes (form s) !! i = Some e ->
  data (edata e) DEFAULTS.dataType = JSStr DEFAULTS.textType ->
  inputs e = c :: rest ->
  val c <> EmptyString ->
  JS.strict_eq (data (cdata c) DEFAULTS.dataCondition) (JSStr DEFAULTS.length) = false ->
  JS.strict_eq (data (cdata c) DEFAULTS.dataCondition) (JSStr DEFAULTS.equal) = false ->
  validateField v i s
  = Returned tt {| form := with_node i (marked (shown_text e JSUndefined) e) (form s);
                   log := log s |}.
Proof.
  intros Hs Hi Ht Hin Hval H1 H2. destruct (supported_lang v Hs) as (l & Hl & _).
  rewrite validateField_eq, (field_at_lookup _ _ _ Hi).
  unfold fieldParams. rewrite Hl, Ht. cbn -[validateTextField checkFieldValidness].
  unfold validateTextField. rewrite Hl, Hin, (text_condition_undefined _ _ H1 H2).
  cbn -[checkFieldValidness]. rewrite checkFieldValidness_eq, (field_at_lookup _ _ _ Hi).
  assert (JS.truthy (JSNum (Z.of_nat (String.length (val c)))) = true) as ->.
  { destruct (val c); [contradiction|reflexivity]. }
  cbn. now rewrite (update_one_lookup _ i e).
Qed.

(** C5.  The code does not let such a field pass: for a required text
    field with the value abc and no condition attribute, and for one with
    the condition length and no bound, the computed condition is undefined,
    which is falsy, and the pass marks the field incorrect (its error
    elements keep their text, the computed error text being undefined) and
    does not set the valid flag. *)
Theorem text_without_condition_is_marked :
  fieldParams default_validator plain_text_field
    = Val {| condition := JSUndefined; errorText := JSUndefined; valueLength := JSNum 3 |} /\
  fieldParams default_validator unbounded_length_field
    = Val {| condition := JSUndefined; errorText := JSUndefined; valueLength := JSNum 3 |} /\
  runFormValidation default_validator (page [] [plain_text_field])
    = Returned tt (page [] [with_classes (addClass DEFAULTS.incorrect) plain_text_field]) /\
  runFormValidation default_validator (page [] [unbounded_length_field])
    = Returned tt (page [] [with_classes (addClass DEFAULTS.incorrect) unbounded_length_field]) /\
  formIsValid (form (page [] [with_classes (addClass DEFAULTS.incorrect) plain_text_field]))
    = false.
Proof. repeat split; vm_compute; reflexivity. Qed.

(** ** Select fields *)

(** C6, as stated, fails: the value 00 is truthy and is not the string 0,
    and the field fails with the incorrectSelect message. *)
Lemma select_00_fails :
  JS.truthy (JSStr "00") = true /\ JSStr "00" <> JSStr "0" /\
  validateField default_validator 0 (page [] [select_field (JSStr "00")])
    = Returned tt (page [] [incorrect_with "Please, select an option"
                                           (select_field (JSStr "00"))]).
Proof. split; [reflexivity|]. split; [discriminate|]. vm_compute. reflexivity. Qed.

(** C6, amended.  In a supported locale, a select field without custom
    text fails with the incorrectSelect message exactly when the selected
    value is falsy or loosely equal to the number 0 (value == 0), and passes,
    setting the valid flag and leaving the field alone, for every other
    value; its length is 1. *)
Theorem select_fails_iff_falsy_or_zero (v : Validator) (i : nat) (e : Element) (s : State) :
  supported v ->
  nodes (form s) !! i = Some e ->
  data (edata e) DEFAULTS.dataType = JSStr DEFAULTS.selectType ->
  data (edata e) DEFAULTS.textDataName = JSUndefined ->
  exists l m,
    lang_table (lang (options v)) = Some l /\ incorrectSelect l = JSStr m /\
    valueLength (validateSelectField v e) = JSNum 1 /\
    validateField v i s =
    Returned tt
      {| form := if JS.truthy (selected_value e) && JS.loose_ne_zero (selected_value e)
                 then form_addClass DEFAULTS.formIsValid (form s)
                 else with_node i (incorrect_with m e) (form s);
         log := log s |}.
Proof.
  intros Hs Hi Ht Hx. destruct (supported_lang v Hs) as (l & Hl & Hen).
  assert (exists m, incorrectSelect l = JSStr m) as (m & Hm)
    by (destruct Hen as [-> | ->]; eexists; reflexivity).
  exists l, m. split; [assumption|]. split; [assumption|]. split; [reflexivity|].
  rewrite validateField_eq, (field_at_lookup _ _ _ Hi).
  unfold fieldParams. rewrite Hl, Ht. cbn -[validateSelectField checkFieldValidness].
  rewrite checkFieldValidness_eq, (field_at_lookup _ _ _ Hi), Hl.
  unfold shown_text. rewrite Hx. cbn.
  unfold JS.and. destruct (JS.truthy (selected_value e)) eqn:Htr; cbn.
  - destruct (JS.loose_ne_zero (selected_value e)); cbn; [reflexivity|].
    now rewrite (update_one_lookup _ i e), Hm.
  - rewrite Htr. cbn. now rewrite (update_one_lookup _ i e), Hm.
Qed.

(** ** Construction and the locale *)

(** C7, as stated, fails: constructing a validator with the locale tag fr
    returns an instance that holds the tag; on a form without trigger
    nothing is bound and nothing is logged. *)
Lemma unknown_locale_constructs :
  new_Validator french_options (page [] [])
    = Returned {| options := extend_defaults french_options |}
               {| form := form (page [] []); log := [] |} /\
  lang (extend_defaults french_options) = "fr".
Proof. split; reflexivity. Qed.

Lemma each_emit (ev : Event) (set : list nat) (s : State) :
  each set (fun _ => emit ev) s
  = Returned tt {| form := form s; log := log s ++ replicate (length set) ev |}.
Proof.
  revert s. induction set as [|i set IH]; intros [d lg]; simpl.
  - unfold ret. now rewrite app_nil_r.
  - unfold bind, emit. rewrite IH. simpl. now rewrite <- app_assoc.
Qed.

Lemma bindOnClickValidation_eq (v : Validator) (s : State) :
  bindOnClickValidation v s
  = Returned tt {| form := form s;
                   log := log s ++ replicate (length (find (class_selector "validate-form-button")
                                                            (form s)))
                                             (Bound TriggerClick) |}.
Proof. unfold bindOnClickValidation, bind, get_form. apply each_emit. Qed.

Lemma init_returns (v : Validator) (s : State) :
  exists evs, init v s = Returned tt {| form := form s; log := log s ++ evs |}.
Proof.
  unfold init. unfold bind at 1. rewrite bindOnClickValidation_eq.
  cbv [bind removeIncorrectStateOnModalClose removeIncorrectStateOnFocusOut emit ret get_form].
  destruct (modal (options v)), (removeErrorOnFocusOut (options v)); simpl;
    try destruct (inModal (form s)); simpl; rewrite <- ?app_assoc; eexists;
    try reflexivity; now rewrite app_nil_r.
Qed.

(** C7, amended.  Construction makes no check of the locale tag and never
    fails: for every options object it returns the instance holding the
    given tag, or en when none is given, and leaves the DOM as it is.  The
    catalog is looked up by the tag at each use: the lookup gives the
    English catalog for en and the Russian one for ru; for a tag without an
    entry, such as fr, it gives undefined, and the failure comes when a
    field is evaluated, as a TypeError. *)
Theorem construction_ignores_locale (o : UserOptions) (s : State) :
  (exists s', new_Validator o s = Returned {| options := extend_defaults o |} s'
              /\ form s' = form s) /\
  lang (extend_defaults o) = default "en" (u_lang o) /\
  lang_table "en" = Some en /\
  lang_table "ru" = Some ru /\
  lang_table "fr" = None /\
  (forall (v : Validator) (i : nat) (s0 : State),
     lang_table (lang (options v)) = None -> validateField v i s0 = Thrown TypeError s0).
Proof.
  split.
  { unfold new_Validator, bind.
    destruct (init_returns {| options := extend_defaults o |} s) as (evs & ->).
    eexists. split; reflexivity. }
  repeat split.
  intros v i s0 H. rewrite validateField_eq. unfold fieldParams. now rewrite H.
Qed.

(** ** Radio fields *)

Lemma filter_nil_forall {A} (p : A -> bool) (l : list A) :
  (forall x, x ∈ l -> p x = false) -> List.filter p l = [].
Proof.
  induction l as [|x l IH]; intros H; simpl; [reflexivity|].
  rewrite (H x (list_elem_of_here _ _)). apply IH.
  intros y Hy. apply H. now apply list_elem_of_further.
Qed.

(** C9.  In a supported locale, for a required radio field with no radio
    control that is both checked and visible and with no custom text, the
    parameters are the condition false, the default error text emptyField
    and the length 1, and the pass marks the field incorrect and sets the
    text of its error elements to the locale's emptyField message. *)
Theorem unchecked_radio_shows_emptyField (v : Validator) (i : nat) (e : Element) (s : State) :
  supported v ->
  nodes (form s) !! i = Some e ->
  data (edata e) "validation" = JSStr DEFAULTS.requiredToValidate ->
  data (edata e) DEFAULTS.dataType = JSStr DEFAULTS.radioType ->
  data (edata e) DEFAULTS.textDataName = JSUndefined ->
  (forall c, c ∈ inputs e -> radio c && checked c && visible c = false) ->
  exists l m,
    lang_table (lang (options v)) = Some l /\ emptyField l = JSStr m /\
    fieldParams v e
      = Val {| condition := JSBool false; errorText := JSStr m; valueLength := JSNum 1 |} /\
    validate_if_required v i s
      = Returned tt {| form := with_node i (incorrect_with m e) (form s); log := log s |}.
Proof.
  intros Hs Hi Hreq Ht Hx Hnone. destruct (supported_lang v Hs) as (l & Hl & Hen).
  destruct (emptyField_string l Hen) as (m & Hm).
  assert (Hp : fieldParams v e
    = Val {| condition := JSBool false; errorText := JSStr m; valueLength := JSNum 1 |}).
  { unfold fieldParams. rewrite Hl, Ht. cbn -[validateRadioField].
    unfold validateRadioField. rewrite (filter_nil_forall _ _ Hnone), Hm. reflexivity. }
  exists l, m. split; [assumption|]. split; [assumption|]. split; [assumption|].
  unfold validate_if_required, bind, get_form.
  rewrite (field_at_lookup _ _ _ Hi), Hreq. cbn -[validateField].
  rewrite validateField_eq, (field_at_lookup _ _ _ Hi), Hp.
  rewrite checkFieldValidness_eq, (field_at_lookup _ _ _ Hi). cbn.
  unfold shown_text. rewrite Hx. cbn.
  now rewrite (update_one_lookup _ i e).
Qed.

(** ** The theorems at sample forms *)

Lemma checkFieldValidness_precedence_witness :
  exists l m,
    lang_table (lang (options default_validator)) = Some l /\ emptyField l = JSStr m /\
    (JS.truthy (JSNum 0) = false ->
       checkFieldValidness default_validator 0 (JSBool true) (JSStr "computed") (JSNum 0)
                           (page [] [custom_text_field]) =
       Returned tt {| form := with_node 0 (incorrect_with m custom_text_field)
                                        (form (page [] [custom_text_field]));
                      log := log (page [] [custom_text_field]) |}) /\
    (JS.truthy (JSNum 0) = true -> JS.truthy (JSBool true) = false ->
       checkFieldValidness default_validator 0 (JSBool true) (JSStr "computed") (JSNum 0)
                           (page [] [custom_text_field]) =
       Returned tt {| form := with_node 0 (marked (shown_text custom_text_field (JSStr "computed"))
                                                  custom_text_field)
                                        (form (page [] [custom_text_field]));
                      log := log (page [] [custom_text_field]) |}
       /\ (forall x, data (edata custom_text_field) DEFAULTS.textDataName = JSStr x -> x <> "" ->
             marked (shown_text custom_text_field (JSStr "computed")) custom_text_field
             = incorrect_with x custom_text_field)
       /\ ((forall x, data (edata custom_text_field) DEFAULTS.textDataName = JSStr x -> x = "") ->
             shown_text custom_text_field (JSStr "computed") = JSStr "computed")) /\
    (JS.truthy (JSNum 0) = true -> JS.truthy (JSBool true) = true ->
       checkFieldValidness default_validator 0 (JSBool true) (JSStr "computed") (JSNum 0)
                           (page [] [custom_text_field]) =
       Returned tt {| form := form_addClass DEFAULTS.formIsValid (form (page [] [custom_text_field]));
                      log := log (page [] [custom_text_field]) |}).
Proof.
  apply (checkFieldValidness_precedence default_validator 0 custom_text_field
           (page [] [custom_text_field]) (JSBool true) (JSStr "computed") (JSNum 0)).
  - left. reflexivity.
  - reflexivity.
Defined.


Lemma select_fails_iff_falsy_or_zero_witness :
  exists l m,
    lang_table (lang (options default_validator)) = Some l /\ incorrectSelect l = JSStr m /\
    valueLength (validateSelectField default_validator (select_field (JSStr "0"))) = JSNum 1 /\
    validateField default_validator 0 (page [] [select_field (JSStr "0")]) =
    Returned tt
      {| form := if JS.truthy (selected_value (select_field (JSStr "0")))
                    && JS.loose_ne_zero (selected_value (select_field (JSStr "0")))
                 then form_addClass DEFAULTS.formIsValid (form (page [] [select_field (JSStr "0")]))
                 else with_node 0 (incorrect_with m (select_field (JSStr "0")))
                                (form (page [] [select_field (JSStr "0")]));
         log := log (page [] [select_field (JSStr "0")]) |}.
Proof.
  apply (select_fails_iff_falsy_or_zero default_validator 0 (select_field (JSStr "0"))
           (page [] [select_field (JSStr "0")])).
  - left. reflexivity.
  - reflexivity.
  - reflexivity.
  - reflexivity.
Defined.

Lemma unchecked_radio_shows_emptyField_witness :
  exists l m,
    lang_table (lang (options default_validator)) = Some l /\ emptyField l = JSStr m /\
    fieldParams default_validator unchecked_radio_field
      = Val {| condition := JSBool false; errorText := JSStr m; valueLength := JSNum 1 |} /\
    validate_if_required default_validator 0 (page [] [unchecked_radio_field])
      = Returned tt {| form := with_node 0 (incorrect_with m unchecked_radio_field)
                                         (form (page [] [unchecked_radio_field]));
                       log := log (page [] [unchecked_radio_field]) |}.
Proof.
  apply (unchecked_radio_shows_emptyField default_validator 0 unchecked_radio_field
           (page [] [unchecked_radio_field])).
  - left. reflexivity.
  - reflexivity.
  - reflexivity.
  - reflexivity.
  - reflexivity.
  - intros c Hc. repeat (apply elem_of_cons in Hc as [-> | Hc]; [reflexivity|]).
    inversion Hc.
Defined.

(** * Further properties *)

(** ** One field, by its verdict *)

Lemma validateField_verdict (v : Validator) (i : nat) (e : Element) (s : State) :
  nodes (form s) !! i = Some e ->
  validateField v i s =
  match verdict v e with
  | Val (Some t) => Returned tt (failed i e t s)
  | Val None => Returned tt (passed s)
  | Exn x => Thrown x s
  end.
Proof.
  intros Hi. rewrite validateField_eq, (field_at_lookup _ _ _ Hi). unfold verdict.
  destruct (fieldParams v e) as [p|x]; simpl; [|reflexivity].
  rewrite checkFieldValidness_eq, (field_at_lookup _ _ _ Hi).
  destruct (JS.truthy (valueLength p)); simpl.
  - destruct (JS.truthy (condition p)); simpl; [reflexivity|].
    unfold failed. now rewrite (update_one_lookup _ i e).
  - unfold prop. destruct (lang_table (lang (options v))); simpl; [|reflexivity].
    unfold failed. now rewrite (update_one_lookup _ i e).
Qed.

Lemma validate_if_required_verdict (v : Validator) (i : nat) (e : Element) (s : State) :
  nodes (form s) !! i = Some e ->
  validate_if_required v i s =
  if is_required e then
    match verdict v e with
    | Val (Some t) => Returned tt (failed i e t s)
    | Val None => Returned tt (passed s)
    | Exn x => Thrown x s
    end
  else Returned tt s.
Proof.
  intros Hi. unfold validate_if_required, bind, get_form.
  rewrite (field_at_lookup _ _ _ Hi). fold (is_required e).
  destruct (is_required e); [now apply validateField_verdict | reflexivity].
Qed.

(** The loop over the indices of the matching elements is the traversal of
    the list of elements. *)
Lemma each_eval_list (v : Validator) (pre l : list Element) (cls : list string)
    (m : bool) (lg : list Event) :
  each (find_from (fieldsSelector (options v)) (length pre) l) (validate_if_required v)
       {| form := {| formClasses := cls; inModal := m; nodes := pre ++ l |}; log := lg |}
  = let '(l2, cls2, err) := eval_list v cls l in
    let s' := {| form := {| formClasses := cls2; inModal := m; nodes := pre ++ l2 |};
                 log := lg |} in
    match err with
    | None => Returned tt s'
    | Some x => Thrown x s'
    end.
Proof.
  revert pre cls. induction l as [|e l IH]; intros pre cls; simpl; [reflexivity|].
  assert (Hnext : forall e' : Element, S (length pre) = length (pre ++ [e'])).
  { intros e'. rewrite length_app. simpl. lia. }
  assert (Hcons : forall e' (k : list Element), pre ++ e' :: k = (pre ++ [e']) ++ k).
  { intros e' k. now rewrite <- app_assoc. }
  destruct (fieldsSelector (options v) e) eqn:Hsel; simpl.
  - unfold bind at 1.
    rewrite (validate_if_required_verdict v (length pre) e)
      by (simpl; rewrite lookup_app_r, Nat.sub_diag by lia; reflexivity).
    destruct (is_required e) eqn:Hreq.
    + destruct (verdict v e) as [[t|]|x].
      * unfold failed, with_node. cbn [form log formClasses inModal nodes].
        rewrite insert_app_r_alt, Nat.sub_diag by lia. cbn [insert list_insert].
        rewrite (Hnext (marked t e)), (Hcons (marked t e) l), IH.
        destruct (eval_list v cls l) as [[l2 cls2] err]. now rewrite <- app_assoc.
      * unfold passed, form_addClass. cbn [form log formClasses inModal nodes].
        rewrite (Hnext e), (Hcons e l), IH.
        destruct (eval_list v _ l) as [[l2 cls2] err]. now rewrite <- app_assoc.
      * reflexivity.
    + rewrite (Hnext e), (Hcons e l), IH.
      destruct (eval_list v cls l) as [[l2 cls2] err]. now rewrite <- app_assoc.
  - rewrite (Hnext e), (Hcons e l), IH.
    destruct (eval_list v cls l) as [[l2 cls2] err]. now rewrite <- app_assoc.
Qed.

Lemma validateAllFields_eval_list (v : Validator) (s : State) :
  validateAllFields v s =
  let '(l2, cls2, err) := eval_list v (formClasses (form s)) (nodes (form s)) in
  let s' := {| form := {| formClasses := cls2; inModal := inModal (form s); nodes := l2 |};
               log := log s |} in
  match err with
  | None => Returned tt s'
  | Some x => Thrown x s'
  end.
Proof.
  unfold validateAllFields, bind, get_form, find.
  destruct s as [[cls m ns] lg]. simpl.
  apply (each_eval_list v [] ns cls m lg).
Qed.

Lemma strict_eq_str (a : JSValue) (x : string) :
  JS.strict_eq a (JSStr x) = false <-> a <> JSStr x.
Proof.
  destruct a as [| | | | |y]; simpl; try (split; [discriminate|reflexivity]).
  rewrite String.eqb_neq. split; [congruence|]. intros H Hxy. apply H. now subst.
Qed.

Lemma value_length_truthy (c : Control) :
  val c <> EmptyString -> JS.truthy (JSNum (value_length c)) = true.
Proof. unfold value_length. destruct (val c); [contradiction|reflexivity]. Qed.

Lemma value_length_falsy (c : Control) :
  val c = EmptyString -> JS.truthy (JSNum (value_length c)) = false.
Proof. unfold value_length. now intros ->. Qed.

Lemma validateTextField_control (v : Validator) (e : Element) (c : Control) :
  text_control e = Some c ->
  validateTextField v e =
  let* ce := text_condition (lang_table (lang (options v))) c in
  Val {| condition := fst ce; errorText := snd ce; valueLength := JSNum (value_length c) |}.
Proof.
  unfold text_control, validateTextField. destruct (inputs e) as [|c0 cs].
  - destruct (textareas e) as [|c0 cs]; [discriminate|]. simpl. now intros [= ->].
  - now intros [= ->].
Qed.

Lemma formIsValid_false_of_incorrect (f : Form) (e : Element) :
  e ∈ nodes f -> hasClass DEFAULTS.incorrect (classes e) = true -> formIsValid f = false.
Proof.
  intros He Hc. unfold formIsValid, find.
  destruct (length (find_from (class_selector DEFAULTS.incorrect) 0 (nodes f))) eqn:Hlen;
    [|reflexivity].
  pose proof (proj1 (find_from_length_0 _ _ _) Hlen e He) as Hno.
  unfold class_selector in Hno. congruence.
Qed.

Lemma formIsValid_failed (i : nat) (e : Element) (t : JSValue) (s : State) :
  nodes (form s) !! i = Some e -> formIsValid (form (failed i e t s)) = false.
Proof.
  intros Hi. apply (formIsValid_false_of_incorrect _ (marked t e)).
  - simpl. apply list_elem_of_lookup. exists i.
    apply list_lookup_insert_eq. now apply lookup_lt_Some in Hi.
  - simpl. rewrite hasClass_addClass. apply orb_true_r.
Qed.

(** ** Text fields: the length and equal conditions *)

Section TextField.
Variables (v : Validator) (i : nat) (e : Element) (c : Control) (s : State).
Hypothesis Hsupported : supported v.
Hypothesis Hfield : nodes (form s) !! i = Some e.
Hypothesis Htype : data (edata e) DEFAULTS.dataType = JSStr DEFAULTS.textType.
Hypothesis Hcontrol : text_control e = Some c.

Lemma text_field_by_condition (l : Lang) :
  lang_table (lang (options v)) = Some l ->
  validateField v i s =
  match text_condition (Some l) c with
  | Val ce =>
      if negb (JS.truthy (JSNum (value_length c)))
      then Returned tt (failed i e (emptyField l) s)
      else if negb (JS.truthy (fst ce))
      then Returned tt (failed i e (shown_text e (snd ce)) s)
      else Returned tt (passed s)
  | Exn x => Thrown x s
  end.
Proof.
  intros Hl. rewrite (validateField_verdict v i e s Hfield). unfold verdict, fieldParams.
  rewrite Hl, Htype. cbn -[validateTextField text_condition JS.truthy value_length].
  rewrite (validateTextField_control v e c Hcontrol), Hl.
  destruct (text_condition (Some l) c) as [ce|x]; [|reflexivity].
  cbn -[value_length JS.truthy].
  destruct (JS.truthy (JSNum (value_length c))); cbn -[JS.truthy]; [|reflexivity].
  destruct (JS.truthy (fst ce)); reflexivity.
Qed.

(** X1.  A text field whose control has the condition length and a truthy
    exact bound that parseInt reads as [n] passes exactly when the length of
    its value is [n], whatever its minimal and maximal bounds are; otherwise
    it fails with the text made of reqFieldLength, the bound, a space and
    the unit word of the locale.  A bound that is a number is taken below
    2^53 in magnitude. *)
Theorem text_exact_length (n : Z) :
  data (cdata c) DEFAULTS.dataCondition = JSStr DEFAULTS.length ->
  JS.truthy (data (cdata c) "length") = true ->
  safe_integer (data (cdata c) "length") = true ->
  JS.parseInt (data (cdata c) "length") = JSNum n ->
  val c <> EmptyString ->
  exists l,
    lang_table (lang (options v)) = Some l /\
    validateField v i s =
    if value_length c =? n then Returned tt (passed s)
    else Returned tt
           (failed i e
              (shown_text e (JS.add (JS.add (JS.add (reqFieldLength l)
                                                    (data (cdata c) "length"))
                                            (JSStr " "))
                                    (symbols l))) s).
Proof.
  intros Hcond Htruthy _ Hparse Hval. destruct (supported_lang v Hsupported) as (l & Hl & Hen).
  exists l. split; [assumption|]. rewrite (text_field_by_condition l Hl).
  unfold text_condition. rewrite Hcond. cbn -[value_length JS.parseInt JS.add JS.truthy].
  rewrite Htruthy, Hparse. fold (value_length c).
  rewrite (value_length_truthy c Hval).
  destruct Hen as [-> | ->]; cbn -[value_length JS.add];
    destruct (value_length c =? n); reflexivity.
Qed.

(** X2.  With the condition length, no truthy exact bound and truthy
    maximal and minimal bounds that parseInt reads as [mx] and [mn], the
    field passes exactly when the length of its value is between [mn] and
    [mx]; otherwise it fails with the text made of the two parts of
    minMaxFieldLength around the maximal bound, followed by the minimal
    one.  Bounds that are numbers are taken below 2^53 in magnitude. *)
Theorem text_min_max_length (mn mx : Z) :
  data (cdata c) DEFAULTS.dataCondition = JSStr DEFAULTS.length ->
  JS.truthy (data (cdata c) "length") = false ->
  JS.truthy (data (cdata c) "max-length") = true ->
  JS.truthy (data (cdata c) "min-length") = true ->
  safe_integer (data (cdata c) "max-length") = true ->
  safe_integer (data (cdata c) "min-length") = true ->
  JS.parseInt (data (cdata c) "max-length") = JSNum mx ->
  JS.parseInt (data (cdata c) "min-length") = JSNum mn ->
  val c <> EmptyString ->
  exists l mm,
    lang_table (lang (options v)) = Some l /\ minMaxFieldLength l = Some mm /\
    validateField v i s =
    if (mn <=? value_length c) && (value_length c <=? mx) then Returned tt (passed s)
    else Returned tt
           (failed i e
              (shown_text e (JS.add (JS.add (JS.add (first mm) (data (cdata c) "max-length"))
                                            (second mm))
                                    (data (cdata c) "min-length"))) s).
Proof.
  intros Hcond Hlen Hmax Hmin _ _ Hpmax Hpmin Hval.
  destruct (supported_lang v Hsupported) as (l & Hl & Hen).
  assert (exists mm, minMaxFieldLength l = Some mm) as (mm & Hmm)
    by (destruct Hen as [-> | ->]; eexists; reflexivity).
  exists l, mm. split; [assumption|]. split; [assumption|].
  rewrite (text_field_by_condition l Hl).
  unfold text_condition, prop_minMax, prop. rewrite Hcond.
  cbn -[value_length JS.parseInt JS.add JS.truthy].
  rewrite Hlen, Hmax, Hmin, Hpmax, Hpmin, Hmm. fold (value_length c).
  cbn -[value_length JS.add JS.truthy]. rewrite (value_length_truthy c Hval).
  cbn -[value_length JS.add].
  rewrite (andb_comm (value_length c <=? mx)).
  destruct ((mn <=? value_length c) && (value_length c <=? mx)); reflexivity.
Qed.

(** X3.  With the condition length and no truthy exact bound, a truthy
    maximal bound alone, read by parseInt as [mx], lets the field pass
    exactly when its value is at most [mx] long, and a truthy minimal bound
    alone, read as [mn], exactly when it is at least [mn] long; the text of
    the failure is maxFieldLength, or minFieldLength, then the bound, a
    space and the unit word.  A bound that is a number is taken below 2^53
    in magnitude. *)
Theorem text_single_bound (b : Z) :
  data (cdata c) DEFAULTS.dataCondition = JSStr DEFAULTS.length ->
  JS.truthy (data (cdata c) "length") = false ->
  val c <> EmptyString ->
  exists l,
    lang_table (lang (options v)) = Some l /\
    (JS.truthy (data (cdata c) "max-length") = true ->
     JS.truthy (data (cdata c) "min-length") = false ->
     safe_integer (data (cdata c) "max-length") = true ->
     JS.parseInt (data (cdata c) "max-length") = JSNum b ->
     validateField v i s =
     if value_length c <=? b then Returned tt (passed s)
     else Returned tt
            (failed i e
               (shown_text e (JS.add (JS.add (JS.add (maxFieldLength l)
                                                     (data (cdata c) "max-length"))
                                             (JSStr " "))
                                     (symbols l))) s)) /\
    (JS.truthy (data (cdata c) "max-length") = false ->
     JS.truthy (data (cdata c) "min-length") = true ->
     safe_integer (data (cdata c) "min-length") = true ->
     JS.parseInt (data (cdata c) "min-length") = JSNum b ->
     validateField v i s =
     if b <=? value_length c then Returned tt (passed s)
     else Returned tt
            (failed i e
               (shown_text e (JS.add (JS.add (JS.add (minFieldLength l)
                                                     (data (cdata c) "min-length"))
                                             (JSStr " "))
                                     (symbols l))) s)).
Proof.
  intros Hcond Hlen Hval. destruct (supported_lang v Hsupported) as (l & Hl & Hen).
  exists l. split; [assumption|]. rewrite (text_field_by_condition l Hl).
  unfold text_condition. rewrite Hcond. cbn -[value_length JS.parseInt JS.add JS.truthy].
  rewrite Hlen. fold (value_length c). rewrite (value_length_truthy c Hval). split.
  - intros Hmax Hmin _ Hp. rewrite Hmax, Hmin, Hp.
    destruct Hen as [-> | ->]; cbn -[value_length JS.add];
      destruct (value_length c <=? b); reflexivity.
  - intros Hmax Hmin _ Hp. rewrite Hmax, Hmin, Hp.
    destruct Hen as [-> | ->]; cbn -[value_length JS.add];
      destruct (b <=? value_length c); reflexivity.
Qed.

(** X4.  A truthy bound that parseInt cannot read (it does not start with
    digits) makes the field fail whatever its value is: the exact bound, or,
    without a truthy exact bound, the maximal or the minimal one. *)
Theorem text_unreadable_bound :
  data (cdata c) DEFAULTS.dataCondition = JSStr DEFAULTS.length ->
  val c <> EmptyString ->
  (JS.truthy (data (cdata c) "length") = true /\
   JS.parseInt (data (cdata c) "length") = JSNaN)
  \/ (JS.truthy (data (cdata c) "length") = false /\
      JS.truthy (data (cdata c) "max-length") = true /\
      JS.parseInt (data (cdata c) "max-length") = JSNaN)
  \/ (JS.truthy (data (cdata c) "length") = false /\
      JS.truthy (data (cdata c) "min-length") = true /\
      JS.parseInt (data (cdata c) "min-length") = JSNaN) ->
  exists t, validateField v i s = Returned tt (failed i e t s).
Proof.
  intros Hcond Hval Hcases. destruct (supported_lang v Hsupported) as (l & Hl & Hen).
  rewrite (text_field_by_condition l Hl).
  unfold text_condition, prop_minMax. rewrite Hcond.
  cbn -[value_length JS.parseInt JS.add JS.truthy].
  fold (value_length c). rewrite (value_length_truthy c Hval).
  destruct Hcases as [(Ht & Hp) | [(Hf & Ht & Hp) | (Hf & Ht & Hp)]].
  - rewrite Ht, Hp. destruct Hen as [-> | ->]; cbn -[value_length JS.add];
      eexists; reflexivity.
  - rewrite Hf, Ht, Hp.
    destruct (JS.truthy (data (cdata c) "min-length"));
      destruct Hen as [-> | ->]; cbn -[value_length JS.add JS.parseInt];
      eexists; reflexivity.
  - rewrite Hf, Ht, Hp.
    destruct (JS.truthy (data (cdata c) "max-length"));
      destruct Hen as [-> | ->]; cbn -[value_length JS.add JS.parseInt JS.le];
      rewrite ?andb_false_r; cbn -[value_length JS.add JS.parseInt JS.le];
      eexists; reflexivity.
Qed.

(** X5.  With the condition equal, the field passes exactly when the
    needed value kept under the key equal is a string and is the value of
    the control; a needed value that is not a string (a number, a boolean,
    null, or none at all) makes the field fail whatever its value is.  The
    text of the failure is notEqual. *)
Theorem text_equal :
  data (cdata c) DEFAULTS.dataCondition = JSStr DEFAULTS.equal ->
  val c <> EmptyString ->
  exists l,
    lang_table (lang (options v)) = Some l /\
    (forall x, data (cdata c) DEFAULTS.equal = JSStr x ->
       validateField v i s =
       if String.eqb (val c) x then Returned tt (passed s)
       else Returned tt (failed i e (shown_text e (notEqual l)) s)) /\
    ((forall x, data (cdata c) DEFAULTS.equal <> JSStr x) ->
       validateField v i s = Returned tt (failed i e (shown_text e (notEqual l)) s)).
Proof.
  intros Hcond Hval. destruct (supported_lang v Hsupported) as (l & Hl & Hen).
  exists l. split; [assumption|]. rewrite (text_field_by_condition l Hl).
  unfold text_condition. rewrite Hcond. cbn -[value_length JS.truthy].
  rewrite (value_length_truthy c Hval). split.
  - intros x Hx. rewrite Hx. destruct Hen as [-> | ->]; cbn;
      destruct (String.eqb (val c) x); reflexivity.
  - intros Hx. destruct (data (cdata c) DEFAULTS.equal) as [| | | | |x] eqn:E;
      try (destruct Hen as [-> | ->]; reflexivity).
    now destruct (Hx x).
Qed.

End TextField.

(** ** The other types *)

(** X6.  A phone field whose control has a value with no condition
    attribute, or an unknown one, never passes: with an empty value it fails
    with emptyField, with any other value with incorrectPhone (or the custom
    text), so that the form is not valid after it. *)
Theorem phone_without_condition_never_passes
    (v : Validator) (i : nat) (e : Element) (c : Control) (s : State) :
  supported v ->
  nodes (form s) !! i = Some e ->
  data (edata e) DEFAULTS.dataType = JSStr DEFAULTS.phoneType ->
  text_control e = Some c ->
  data (cdata c) DEFAULTS.dataCondition <> JSStr DEFAULTS.length ->
  data (cdata c) DEFAULTS.dataCondition <> JSStr DEFAULTS.equal ->
  exists l,
    lang_table (lang (options v)) = Some l /\
    let t := if String.eqb (val c) EmptyString then emptyField l
             else shown_text e (incorrectPhone l) in
    validateField v i s = Returned tt (failed i e t s) /\
    formIsValid (form (failed i e t s)) = false.
Proof.
  intros Hs Hi Ht Hc H1 H2. destruct (supported_lang v Hs) as (l & Hl & Hen).
  exists l. split; [assumption|]. intros t. split; [|now apply formIsValid_failed].
  rewrite (validateField_verdict v i e s Hi). unfold verdict, fieldParams.
  rewrite Hl, Ht. cbn -[validateTextField JS.truthy].
  rewrite (validateTextField_control v e c Hc), Hl.
  rewrite (text_condition_undefined _ c) by now apply strict_eq_str.
  subst t. cbn -[JS.truthy value_length].
  destruct (val c) as [|a x] eqn:Hv.
  - rewrite (value_length_falsy c Hv). reflexivity.
  - rewrite (value_length_truthy c) by (rewrite Hv; discriminate). reflexivity.
Qed.

(** X7.  A field whose type is none of text, phone, email, radio and
    select (checkbox, an unknown type, or no type at all) passes whatever it
    contains: the form gets the valid flag and the field is left as it
    is. *)
Theorem other_types_pass (v : Validator) (i : nat) (e : Element) (s : State) :
  supported v ->
  nodes (form s) !! i = Some e ->
  (forall x, x ∈ evaluated_types -> data (edata e) DEFAULTS.dataType <> JSStr x) ->
  validateField v i s = Returned tt (passed s).
Proof.
  intros Hs Hi Hty. destruct (supported_lang v Hs) as (l & Hl & Hen).
  rewrite (validateField_verdict v i e s Hi). unfold verdict, fieldParams. rewrite Hl.
  cbn -[JS.strict_eq validateTextField validateEmailField validateSelectField].
  assert (Hne : forall x, x ∈ evaluated_types ->
            JS.strict_eq (data (edata e) DEFAULTS.dataType) (JSStr x) = false).
  { intros x Hx. apply strict_eq_str. now apply Hty. }
  unfold evaluated_types in Hne.
  rewrite !Hne by (repeat ((apply list_elem_of_here) || (apply list_elem_of_further))).
  destruct Hen as [-> | ->]; reflexivity.
Qed.

(** X8.  An email field with an input passes exactly when the value of
    its first input is not empty and matches the pattern; an empty value
    fails with emptyField, another one with incorrectEmail (or the custom
    text). *)
Theorem email_field_verdict (v : Validator) (i : nat) (e : Element) (c : Control)
    (rest : list Control) (s : State) :
  supported v ->
  nodes (form s) !! i = Some e ->
  data (edata e) DEFAULTS.dataType = JSStr DEFAULTS.emailType ->
  inputs e = c :: rest ->
  exists l,
    lang_table (lang (options v)) = Some l /\
    validateField v i s =
    if String.eqb (val c) EmptyString then Returned tt (failed i e (emptyField l) s)
    else if validateEmail (JSStr (val c)) then Returned tt (passed s)
    else Returned tt (failed i e (shown_text e (incorrectEmail l)) s).
Proof.
  intros Hs Hi Ht Hin. destruct (supported_lang v Hs) as (l & Hl & Hen).
  exists l. split; [assumption|].
  rewrite (validateField_verdict v i e s Hi). unfold verdict, fieldParams.
  rewrite Hl, Ht. cbn -[validateEmailField JS.truthy].
  unfold validateEmailField. rewrite Hin. cbn -[JS.truthy validateEmail].
  fold (value_length c).
  destruct (val c) as [|a x] eqn:Hv.
  - rewrite (value_length_falsy c Hv). reflexivity.
  - rewrite (value_length_truthy c) by (rewrite Hv; discriminate).
    cbn -[validateEmail]. destruct (validateEmail _); reflexivity.
Qed.

(** X9.  A text, phone or email field whose control has the empty value
    fails with the locale's emptyField text, whatever condition and bounds
    the control carries and whatever the custom text of the field is. *)
Theorem empty_value_shows_emptyField
    (v : Validator) (i : nat) (e : Element) (c : Control) (s : State) :
  supported v ->
  nodes (form s) !! i = Some e ->
  (data (edata e) DEFAULTS.dataType = JSStr DEFAULTS.textType /\ text_control e = Some c)
  \/ (data (edata e) DEFAULTS.dataType = JSStr DEFAULTS.phoneType /\ text_control e = Some c)
  \/ (data (edata e) DEFAULTS.dataType = JSStr DEFAULTS.emailType /\ head (inputs e) = Some c) ->
  val c = EmptyString ->
  exists l m,
    lang_table (lang (options v)) = Some l /\ emptyField l = JSStr m /\
    validateField v i s
    = Returned tt {| form := with_node i (incorrect_with m e) (form s); log := log s |}.
Proof.
  intros Hs Hi Hty Hv. destruct (supported_lang v Hs) as (l & Hl & Hen).
  destruct (emptyField_string l Hen) as (m & Hm).
  exists l, m. split; [assumption|]. split; [assumption|].
  rewrite (validateField_verdict v i e s Hi). unfold verdict, fieldParams. rewrite Hl.
  destruct Hty as [(Ht & Hc) | [(Ht & Hc) | (Ht & Hc)]]; rewrite Ht;
    cbn -[validateTextField validateEmailField JS.truthy].
  - rewrite (validateTextField_control v e c Hc), Hl.
    destruct (text_condition_returns l c Hen) as (ce & ->).
    cbn -[JS.truthy value_length]. rewrite (value_length_falsy c Hv).
    unfold failed. now rewrite Hm.
  - rewrite (validateTextField_control v e c Hc), Hl.
    destruct (text_condition_returns l c Hen) as (ce & ->).
    cbn -[JS.truthy value_length]. rewrite (value_length_falsy c Hv).
    unfold failed. now rewrite Hm.
  - unfold validateEmailField. destruct (inputs e) as [|c0 cs]; [discriminate|].
    injection Hc as ->. cbn -[JS.truthy validateEmail]. fold (value_length c).
    rewrite (value_length_falsy c Hv). unfold failed. now rewrite Hm.
Qed.

(** X10.  Evaluating a text or phone field that has neither input nor
    textarea, or an email field that has no input, throws a TypeError and
    leaves the state as it is, in every locale. *)
Theorem missing_control_throws (v : Validator) (i : nat) (e : Element) (s : State) :
  nodes (form s) !! i = Some e ->
  (data (edata e) DEFAULTS.dataType = JSStr DEFAULTS.textType /\ text_control e = None)
  \/ (data (edata e) DEFAULTS.dataType = JSStr DEFAULTS.phoneType /\ text_control e = None)
  \/ (data (edata e) DEFAULTS.dataType = JSStr DEFAULTS.emailType /\ inputs e = []) ->
  validateField v i s = Thrown TypeError s.
Proof.
  intros Hi Hty. rewrite (validateField_verdict v i e s Hi). unfold verdict, fieldParams, prop.
  destruct (lang_table (lang (options v))) as [l|]; [|reflexivity].
  cbn -[validateTextField validateEmailField].
  assert (Htext : text_control e = None -> validateTextField v e = Exn TypeError).
  { unfold text_control, validateTextField.
    destruct (inputs e); [|discriminate]. destruct (textareas e); [reflexivity|discriminate]. }
  destruct Hty as [(Ht & Hc) | [(Ht & Hc) | (Ht & Hc)]]; rewrite Ht;
    cbn -[validateTextField validateEmailField].
  - now rewrite (Htext Hc).
  - now rewrite (Htext Hc).
  - unfold validateEmailField. now rewrite Hc.
Qed.

(** ** The loop over the fields *)

Lemma eval_list_lookup (v : Validator) (l : list Element) (cls : list string)
    (i : nat) (e : Element) :
  l !! i = Some e ->
  exists e', fst (fst (eval_list v cls l)) !! i = Some e' /\
    (e' = e \/ (evaluated_field v e = true /\
                exists t, verdict v e = Val (Some t) /\ e' = marked t e)).
Proof.
  revert cls i. induction l as [|e0 l IH]; intros cls i Hi; [discriminate|].
  simpl. fold (evaluated_field v e0).
  assert (Hrest : forall cls0 (front : Element),
            (i = 0%nat -> front = e0 \/ (evaluated_field v e0 = true /\
               exists t, verdict v e0 = Val (Some t) /\ front = marked t e0)) ->
            exists e', (front :: fst (fst (eval_list v cls0 l))) !! i = Some e' /\
              (e' = e \/ (evaluated_field v e = true /\
                          exists t, verdict v e = Val (Some t) /\ e' = marked t e))).
  { intros cls0 front Hfront. destruct i as [|i]; simpl in *.
    - injection Hi as <-. eexists. split; [reflexivity|]. now apply Hfront.
    - now apply IH. }
  destruct (evaluated_field v e0) eqn:Hev.
  - destruct (verdict v e0) as [[t|]|x] eqn:Hv.
    + destruct (eval_list v cls l) as [[l2 cls2] err] eqn:E. simpl.
      specialize (Hrest cls (marked t e0)). rewrite E in Hrest. apply Hrest.
      intros _. right. split; [reflexivity|]. now exists t.
    + destruct (eval_list v _ l) as [[l2 cls2] err] eqn:E. simpl.
      specialize (Hrest (addClass DEFAULTS.formIsValid cls) e0). rewrite E in Hrest.
      apply Hrest. now left.
    + simpl. exists e. split; [assumption | now left].
  - destruct (eval_list v cls l) as [[l2 cls2] err] eqn:E. simpl.
    specialize (Hrest cls e0). rewrite E in Hrest. apply Hrest. now left.
Qed.

(** X11.  [validateAllFields], whether it returns or throws, leaves every
    element as it is that does not match the configured selector or whose
    data-validation is not the string required. *)
Theorem unrequired_fields_untouched (v : Validator) (s : State) (i : nat) (e : Element) :
  nodes (form s) !! i = Some e ->
  fieldsSelector (options v) e = false \/ is_required e = false ->
  nodes (form (final (validateAllFields v s))) !! i = Some e.
Proof.
  intros Hi Hskip. rewrite validateAllFields_eval_list.
  destruct (eval_list_lookup v (nodes (form s)) (formClasses (form s)) i e Hi)
    as (e' & He' & Hcase).
  destruct (eval_list v _ _) as [[l2 cls2] err]. simpl in He'.
  assert (e' = e) as ->.
  { destruct Hcase as [H|(Hev & _)]; [assumption|]. unfold evaluated_field in Hev.
    apply andb_true_iff in Hev as [H1 H2]. destruct Hskip; congruence. }
  destruct err; exact He'.
Qed.

Lemma addClass_idem (c : string) (cls : list string) :
  addClass c (addClass c cls) = addClass c cls.
Proof.
  unfold addClass at 2. destruct (hasClass c cls) eqn:H.
  - unfold addClass. now rewrite H.
  - unfold addClass. rewrite H.
    assert (hasClass c (cls ++ [c]) = true) as ->; [|reflexivity].
    unfold hasClass. rewrite existsb_app. simpl. now rewrite String.eqb_refl, orb_true_r.
Qed.

Lemma eval_list_returns (v : Validator) (l : list Element) (cls : list string)
    (l2 : list Element) (cls2 : list string) :
  eval_list v cls l = (l2, cls2, None) ->
  l2 = map (eval_elem v) l /\
  cls2 = (if existsb (field_passes v) l then addClass DEFAULTS.formIsValid cls else cls).
Proof.
  revert cls l2 cls2. induction l as [|e l IH]; intros cls l2 cls2 H; simpl in *.
  - injection H as <- <-. split; reflexivity.
  - unfold eval_elem, field_passes. fold (evaluated_field v e) in H.
    destruct (evaluated_field v e) eqn:Hev; simpl.
    + destruct (verdict v e) as [[t|]|x] eqn:Hv.
      * destruct (eval_list v cls l) as [[l2' cls2'] err] eqn:E.
        injection H as <- <- ->. destruct (IH _ _ _ E) as (-> & ->). split; reflexivity.
      * destruct (eval_list v _ l) as [[l2' cls2'] err] eqn:E.
        injection H as <- <- ->. destruct (IH _ _ _ E) as (-> & ->). split; [reflexivity|].
        fold (field_passes v). destruct (existsb (field_passes v) l); [|reflexivity].
        apply addClass_idem.
      * discriminate.
    + destruct (eval_list v cls l) as [[l2' cls2'] err] eqn:E.
      injection H as <- <- ->. destruct (IH _ _ _ E) as (-> & ->). split; reflexivity.
Qed.

Lemma evaluated_eval_list (v : Validator) (s : State) :
  evaluated v s =
  let '(l2, cls2, err) :=
    eval_list v (formClasses (form s)) (map (reset_elem v) (nodes (form s))) in
  let s' := {| form := {| formClasses := cls2; inModal := inModal (form s); nodes := l2 |};
               log := log s |} in
  match err with
  | None => Returned tt s'
  | Some x => Thrown x s'
  end.
Proof.
  unfold evaluated, bind. rewrite removeIncorrectState_eq, validateAllFields_eval_list.
  reflexivity.
Qed.

Lemma find_from_forallb (p : Element -> bool) (n : nat) (l : list Element) :
  negb (JS.truthy (JSNum (Z.of_nat (length (find_from p n l)))))
  = forallb (fun e => negb (p e)) l.
Proof.
  revert n. induction l as [|e l IH]; intros n; simpl; [reflexivity|].
  destruct (p e); simpl; [reflexivity|]. apply IH.
Qed.

Lemma formIsValid_forallb (f : Form) :
  formIsValid f =
  forallb (fun e => negb (hasClass DEFAULTS.incorrect (classes e))) (nodes f)
  && hasClass DEFAULTS.formIsValid (formClasses f).
Proof. unfold formIsValid, find. now rewrite find_from_forallb. Qed.

Lemma requests_app (l1 l2 : list Event) : requests (l1 ++ l2) = requests l1 ++ requests l2.
Proof. apply omap_app. Qed.

Lemma requests_hook_events (h : Hook) (cb : Callback) (d : Form) :
  requests (hook_events h cb d) = [].
Proof. destruct cb; reflexivity. Qed.

Lemma hook_effect_id (cb : Callback) (d : Form) :
  is_function cb = false -> hook_effect cb d = d.
Proof. destruct cb; try discriminate; reflexivity. Qed.

Lemma not_function_returns (cb : Callback) (d : Form) :
  is_function cb = false -> hook_returns cb d = true.
Proof. destruct cb; try discriminate; reflexivity. Qed.

Lemma no_function_hook_return (v : Validator) : no_function_hook v -> hooks_return v.
Proof. intros (Hb & Ho & Ha) d. repeat split; now apply not_function_returns. Qed.

Lemma field_fails_marked (v : Validator) (e : Element) :
  field_fails v e = true -> exists t, eval_elem v e = marked t e.
Proof.
  unfold field_fails, eval_elem. destruct (evaluated_field v e); [|discriminate].
  destruct (verdict v e) as [[t|]|x]; try discriminate. intros _. now exists t.
Qed.

(** X12.  A field that the pass evaluates and that fails keeps the form
    from being submitted: when the beforeValidation hook is not a function,
    a pass over a form with such a field, whether it returns or throws,
    sends no request and does not call the onValid hook. *)
Theorem failed_field_blocks_submission (v : Validator) (s : State) (i : nat) (e : Element) :
  nodes (form s) !! i = Some e ->
  field_fails v (reset_elem v e) = true ->
  is_function (beforeValidation (options v)) = false ->
  exists evs,
    log (final (runFormValidation v s)) = log s ++ evs /\
    requests evs = [] /\ calls OnValid evs = 0%nat.
Proof.
  intros Hi Hfail Hbefore. rewrite runFormValidation_eq, evaluated_eval_list.
  destruct (eval_list v _ _) as [[l2 cls2] [x|]] eqn:E; simpl.
  - exists []. now rewrite app_nil_r.
  - apply eval_list_returns in E as (-> & ->).
    destruct (field_fails_marked v _ Hfail) as (t & Ht).
    rewrite sendIfValidated_log. cbn [form log]. unfold send_events.
    rewrite (not_function_returns _ _ Hbefore), !(hook_effect_id _ _ Hbefore).
    rewrite (formIsValid_false_of_incorrect _ (marked t (reset_elem v e))).
    + eexists. split; [reflexivity|].
      rewrite !requests_app, !requests_hook_events, !calls_app, !calls_hook_events.
      simpl. rewrite !andb_false_r. split; reflexivity.
    + simpl. apply list_elem_of_lookup. exists i.
      rewrite !list_lookup_fmap, Hi. simpl. now rewrite Ht.
    + simpl. rewrite hasClass_addClass. apply orb_true_r.
Qed.

(** X15.  When the hooks are such that their calls return, a pass throws
    only while it evaluates the fields: when it throws, no hook has been
    called, no request sent and no warning given; the log is as the pass
    found it. *)
Theorem thrown_pass_logs_nothing (v : Validator) (s s' : State) (x : JSError) :
  hooks_return v ->
  runFormValidation v s = Thrown x s' ->
  evaluated v s = Thrown x s' /\ log s' = log s.
Proof.
  intros Hr H. rewrite runFormValidation_eq in H.
  pose proof (evaluated_evolved v s) as He. rewrite removeIncorrectState_eq in He.
  destruct (evaluated v s) as [[] s1|x1 s1].
  - rewrite sendIfValidated_eq in H by exact Hr. discriminate.
  - injection H as -> ->. split; [reflexivity|]. now destruct He.
Qed.

Lemma eval_list_all_throw (v : Validator) (x : JSError) (cls : list string) (l : list Element) :
  (forall e, verdict v e = Exn x) ->
  eval_list v cls l = (l, cls, if existsb (evaluated_field v) l then Some x else None).
Proof.
  intros Hx. induction l as [|e l IH]; simpl; [reflexivity|].
  fold (evaluated_field v e). destruct (evaluated_field v e); simpl.
  - now rewrite Hx.
  - now rewrite IH.
Qed.

(** X16.  With a locale tag for which the table has no entry, a pass over
    a form that has a field to evaluate throws a TypeError right after the
    reset: no field is marked and no hook is called; over a form without
    such a field the pass goes on to [sendIfValidated] as usual. *)
Theorem unknown_locale_pass (v : Validator) (s : State) :
  lang_table (lang (options v)) = None ->
  runFormValidation v s =
  if existsb (evaluated_field v) (map (reset_elem v) (nodes (form s)))
  then Thrown TypeError (final (removeIncorrectState v s))
  else sendIfValidated v AjaxFalsy (final (removeIncorrectState v s)).
Proof.
  intros Hl. rewrite runFormValidation_eq, evaluated_eval_list, removeIncorrectState_eq.
  rewrite (eval_list_all_throw v TypeError).
  - destruct (existsb _ _); reflexivity.
  - intros e. unfold verdict, fieldParams. now rewrite Hl.
Qed.

Lemma existsb_fmap {A B} (f : B -> bool) (g : A -> B) (l : list A) :
  existsb f (map g l) = existsb (fun x => f (g x)) l.
Proof. induction l as [|x l IH]; simpl; [reflexivity | now rewrite IH]. Qed.

Lemma forallb_fmap {A B} (f : B -> bool) (g : A -> B) (l : list A) :
  forallb f (map g l) = forallb (fun x => f (g x)) l.
Proof. induction l as [|x l IH]; simpl; [reflexivity | now rewrite IH]. Qed.

Lemma marker_after_evaluation (v : Validator) (e : Element) :
  hasClass DEFAULTS.incorrect (classes (eval_elem v (reset_elem v e)))
  = field_fails v (reset_elem v e) || stray_marker v e.
Proof.
  unfold stray_marker, reset_elem. destruct (fieldsSelector (options v) e) eqn:Hsel; simpl.
  - rewrite orb_false_r. unfold eval_elem, field_fails.
    destruct (evaluated_field v _); simpl.
    + destruct (verdict v _) as [[t|]|x]; simpl.
      * rewrite hasClass_addClass. apply orb_true_r.
      * rewrite hasClass_removeClass. apply andb_false_r.
      * rewrite hasClass_removeClass. apply andb_false_r.
    + rewrite hasClass_removeClass. apply andb_false_r.
  - unfold eval_elem, field_fails, evaluated_field. now rewrite Hsel.
Qed.

Lemma markers_after_evaluation (v : Validator) (l : list Element) :
  forallb (fun e => negb (hasClass DEFAULTS.incorrect (classes e)))
          (map (eval_elem v) (map (reset_elem v) l))
  = negb (existsb (fun e => field_fails v (reset_elem v e)) l)
    && negb (existsb (stray_marker v) l).
Proof.
  induction l as [|e l IH]; simpl; [reflexivity|].
  rewrite IH, marker_after_evaluation.
  destruct (field_fails v (reset_elem v e)), (stray_marker v e); simpl;
    rewrite ?andb_false_r; try reflexivity.
Qed.

Lemma flag_after_evaluation (b : bool) (cls : list string) :
  hasClass DEFAULTS.formIsValid (if b then addClass DEFAULTS.formIsValid cls else cls)
  = hasClass DEFAULTS.formIsValid cls || b.
Proof.
  destruct b; [|now rewrite orb_false_r].
  rewrite hasClass_addClass. simpl. now rewrite !orb_true_r.
Qed.

(** X13.  In a supported locale and on a form whose fields have their
    controls, the reset and the evaluation return, and the form is then
    valid exactly when it had the valid flag already or one of the evaluated
    fields passes, no evaluated field fails, and no element outside the
    selector carries the incorrect marker.  In particular a form that never
    had the flag and has no field to evaluate is not valid. *)
Theorem validity_after_evaluation (v : Validator) (s : State) :
  supported v ->
  controls_present (form s) ->
  exists s1,
    evaluated v s = Returned tt s1 /\
    formIsValid (form s1) =
      (hasClass DEFAULTS.formIsValid (formClasses (form s))
       || existsb (fun e => field_passes v (reset_elem v e)) (nodes (form s)))
      && negb (existsb (fun e => field_fails v (reset_elem v e)) (nodes (form s)))
      && negb (existsb (stray_marker v) (nodes (form s))).
Proof.
  intros Hs Hc. destruct (evaluated_returns v s Hs Hc) as (s1 & H1).
  exists s1. split; [assumption|].
  rewrite evaluated_eval_list in H1.
  destruct (eval_list v _ _) as [[l2 cls2] [x|]] eqn:E; [discriminate|].
  injection H1 as <-. apply eval_list_returns in E as (-> & ->).
  rewrite formIsValid_forallb. cbn [form nodes formClasses].
  rewrite markers_after_evaluation, flag_after_evaluation, existsb_fmap.
  destruct (hasClass _ _), (existsb (fun e => field_passes _ _) _),
    (existsb (fun e => field_fails _ _) _), (existsb (stray_marker v) _); reflexivity.
Qed.

(** ** A second pass *)

Lemma removeClass_idem (c : string) (cls : list string) :
  removeClass c (removeClass c cls) = removeClass c cls.
Proof.
  unfold removeClass. induction cls as [|x cls IH]; [reflexivity|].
  rewrite filter_cons. destruct (decide (x <> c)) as [H|H]; [|exact IH].
  rewrite filter_cons. destruct (decide (x <> c)); [|contradiction]. now rewrite IH.
Qed.

Lemma removeClass_addClass (c : string) (cls : list string) :
  removeClass c (addClass c cls) = removeClass c cls.
Proof.
  unfold addClass. destruct (hasClass c cls); [reflexivity|].
  unfold removeClass. rewrite filter_app, filter_cons.
  destruct (decide (c <> c)); [contradiction|]. rewrite filter_nil. apply app_nil_r.
Qed.

Lemma text_idem (t : JSValue) (l : list string) : text t (text t l) = text t l.
Proof.
  destruct t; simpl; try reflexivity; rewrite map_map; reflexivity.
Qed.

Lemma akin_refl (e : Element) : akin e e.
Proof. repeat split. Qed.

Lemma akin_trans (e1 e2 e3 : Element) : akin e1 e2 -> akin e2 e3 -> akin e1 e3.
Proof.
  intros [(A1 & A2 & A3 & A4) Ac] [(B1 & B2 & B3 & B4) Bc]. split.
  - repeat split; congruence.
  - intros c Hc. now rewrite Bc, Ac.
Qed.

Lemma akin_unmarked (e : Element) : akin e (with_classes (removeClass DEFAULTS.incorrect) e).
Proof.
  split; [repeat split|]. intros c Hc. simpl. rewrite hasClass_removeClass.
  destruct (String.eqb c DEFAULTS.incorrect) eqn:E; [apply String.eqb_eq in E; contradiction|].
  apply andb_true_r.
Qed.

Lemma akin_marked (t : JSValue) (e : Element) : akin e (marked t e).
Proof.
  split; [repeat split|]. intros c Hc. simpl. rewrite hasClass_addClass.
  destruct (String.eqb c DEFAULTS.incorrect) eqn:E; [apply String.eqb_eq in E; contradiction|].
  apply orb_false_r.
Qed.

Lemma akin_errors (g : list string -> list string) (e : Element) : akin e (with_errors g e).
Proof. repeat split. Qed.

Lemma verdict_same_markup (v : Validator) (e e' : Element) :
  same_markup e e' -> verdict v e' = verdict v e.
Proof.
  destruct e as [cls d ins tas sels errs], e' as [cls' d' ins' tas' sels' errs'].
  intros (H1 & H2 & H3 & H4). simpl in *. subst. reflexivity.
Qed.

Lemma evaluated_field_akin (v : Validator) (e e' : Element) :
  stable_selector v -> akin e e' -> evaluated_field v e' = evaluated_field v e.
Proof.
  intros Hst [Hm Hc]. unfold evaluated_field, is_required.
  rewrite (Hst e e' Hm Hc). destruct Hm as (-> & _). reflexivity.
Qed.

Lemma field_passes_akin (v : Validator) (e e' : Element) :
  stable_selector v -> akin e e' -> field_passes v e' = field_passes v e.
Proof.
  intros Hst Hk. unfold field_passes.
  now rewrite (evaluated_field_akin v e e' Hst Hk), (verdict_same_markup v e e' (proj1 Hk)).
Qed.

Lemma akin_reset (v : Validator) (e : Element) : akin e (reset_elem v e).
Proof. unfold reset_elem. destruct (fieldsSelector _ e); [apply akin_unmarked | apply akin_refl]. Qed.

Lemma akin_eval (v : Validator) (e : Element) : akin e (eval_elem v e).
Proof.
  unfold eval_elem. destruct (evaluated_field v e); [|apply akin_refl].
  destruct (verdict v e) as [[t|]|x]; [apply akin_marked | apply akin_refl..].
Qed.

(** One more round of reset and evaluation leaves an element as the first
    round has left it. *)
Lemma round_idem (v : Validator) (e : Element) :
  stable_selector v ->
  eval_elem v (reset_elem v (eval_elem v (reset_elem v e))) = eval_elem v (reset_elem v e).
Proof.
  intros Hst. destruct (fieldsSelector (options v) e) eqn:Hsel.
  - set (e1 := with_classes (removeClass DEFAULTS.incorrect) e).
    assert (Hr : reset_elem v e = e1) by (unfold reset_elem; now rewrite Hsel).
    rewrite Hr.
    assert (Hsel1 : fieldsSelector (options v) e1 = true).
    { destruct (akin_unmarked e) as [Hm Hc]. now rewrite (Hst e e1 Hm Hc). }
    assert (Hreset1 : reset_elem v e1 = e1).
    { unfold reset_elem. rewrite Hsel1. unfold e1, with_classes. simpl.
      now rewrite removeClass_idem. }
    destruct (evaluated_field v e1) eqn:Hev.
    + destruct (verdict v e1) as [[t|]|x] eqn:Hv.
      * assert (Heval : eval_elem v e1 = marked t e1)
          by (unfold eval_elem; now rewrite Hev, Hv).
        rewrite Heval.
        set (e3 := with_errors (text t) e1).
        assert (Hreset2 : reset_elem v (marked t e1) = e3).
        { unfold reset_elem. destruct (akin_marked t e1) as [Hm Hc].
          rewrite (Hst e1 (marked t e1) Hm Hc), Hsel1.
          unfold e3, e1, marked, with_classes, with_errors. simpl.
          now rewrite removeClass_addClass, removeClass_idem. }
        rewrite Hreset2. unfold eval_elem.
        rewrite (evaluated_field_akin v e1 e3 Hst (akin_errors _ e1)), Hev.
        rewrite (verdict_same_markup v e1 e3 (proj1 (akin_errors _ e1))), Hv.
        unfold e3, marked, with_classes, with_errors. simpl. now rewrite text_idem.
      * assert (Heval : eval_elem v e1 = e1) by (unfold eval_elem; now rewrite Hev, Hv).
        now rewrite Heval, Hreset1, Heval.
      * assert (Heval : eval_elem v e1 = e1) by (unfold eval_elem; now rewrite Hev, Hv).
        now rewrite Heval, Hreset1, Heval.
    + assert (Heval : eval_elem v e1 = e1) by (unfold eval_elem; now rewrite Hev).
      now rewrite Heval, Hreset1, Heval.
  - assert (Hr : reset_elem v e = e) by (unfold reset_elem; now rewrite Hsel).
    assert (Heval : eval_elem v e = e).
    { unfold eval_elem, evaluated_field. now rewrite Hsel. }
    now rewrite Hr, Heval, Hr, Heval.
Qed.

Lemma eval_list_no_throw (v : Validator) (l : list Element) (cls : list string)
    (l2 : list Element) (cls2 : list string) :
  eval_list v cls l = (l2, cls2, None) ->
  Forall (fun e => evaluated_field v e = true -> exists o, verdict v e = Val o) l.
Proof.
  revert cls l2 cls2. induction l as [|e l IH]; intros cls l2 cls2 H; [constructor|].
  simpl in H. fold (evaluated_field v e) in H.
  destruct (evaluated_field v e) eqn:Hev.
  - destruct (verdict v e) as [[t|]|x] eqn:Hv; [| |discriminate].
    + destruct (eval_list v cls l) as [[l2' cls2'] err] eqn:E. injection H as <- <- ->.
      constructor; [intros _; eexists; exact Hv | eapply IH; eassumption].
    + destruct (eval_list v _ l) as [[l2' cls2'] err] eqn:E. injection H as <- <- ->.
      constructor; [intros _; eexists; exact Hv | eapply IH; eassumption].
  - destruct (eval_list v cls l) as [[l2' cls2'] err] eqn:E. injection H as <- <- ->.
    constructor; [intros H0; congruence | eapply IH; eassumption].
Qed.

Lemma eval_list_complete (v : Validator) (l : list Element) (cls : list string) :
  Forall (fun e => evaluated_field v e = true -> exists o, verdict v e = Val o) l ->
  eval_list v cls l =
  (map (eval_elem v) l,
   if existsb (field_passes v) l then addClass DEFAULTS.formIsValid cls else cls,
   None).
Proof.
  intros H. destruct (eval_list v cls l) as [[l2 cls2] [x|]] eqn:E.
  - exfalso. revert cls l2 cls2 E. induction H as [|e l He Hl IH]; intros cls l2 cls2 E.
    + discriminate.
    + simpl in E. fold (evaluated_field v e) in E.
      destruct (evaluated_field v e) eqn:Hev.
      * destruct (He eq_refl) as (o & Ho). rewrite Ho in E. destruct o as [t|].
        -- destruct (eval_list v cls l) as [[l2' cls2'] err] eqn:E'. injection E as <- <- ->.
           eapply IH; eassumption.
        -- destruct (eval_list v _ l) as [[l2' cls2'] err] eqn:E'. injection E as <- <- ->.
           eapply IH; eassumption.
      * destruct (eval_list v cls l) as [[l2' cls2'] err] eqn:E'. injection E as <- <- ->.
        eapply IH; eassumption.
  - apply eval_list_returns in E as (-> & ->). reflexivity.
Qed.

(** Reset and evaluation, once they have returned, return again on the
    form they have left and leave it as it is. *)
Lemma round_fixed (v : Validator) (l : list Element) (cls : list string)
    (l2 : list Element) (cls2 : list string) :
  stable_selector v ->
  eval_list v cls (map (reset_elem v) l) = (l2, cls2, None) ->
  eval_list v cls2 (map (reset_elem v) l2) = (l2, cls2, None).
Proof.
  intros Hst E. pose proof (eval_list_no_throw _ _ _ _ _ E) as Hok.
  apply eval_list_returns in E as (-> & ->).
  assert (Hakin : forall e, akin (reset_elem v e)
                                 (reset_elem v (eval_elem v (reset_elem v e)))).
  { intros e. eapply akin_trans; [apply akin_eval | apply akin_reset]. }
  rewrite eval_list_complete.
  - f_equal. f_equal.
    + rewrite !map_map. apply map_ext. intros e. now apply round_idem.
    + rewrite !existsb_fmap.
      assert (Hsame : existsb (fun x => field_passes v
                         (reset_elem v (eval_elem v (reset_elem v x)))) l
                      = existsb (fun x => field_passes v (reset_elem v x)) l).
      { induction l as [|e l IH]; simpl; [reflexivity|].
        rewrite (field_passes_akin v _ _ Hst (Hakin e)). f_equal. apply IH.
        simpl in Hok. now inversion Hok. }
      rewrite Hsame. clear Hsame. destruct (existsb _ l); [apply addClass_idem | reflexivity].
  - rewrite !Forall_fmap in *. rewrite Forall_forall in *. intros e He. simpl.
    specialize (Hok e He). simpl in Hok.
    rewrite (evaluated_field_akin v _ _ Hst (Hakin e)).
    now rewrite (verdict_same_markup v _ _ (proj1 (Hakin e))).
Qed.

(** X14.  When the selector does not look at the incorrect marker nor at
    the error texts and no hook is a function, a pass that has returned can
    be run again on the state it has left: it returns again and leaves the
    DOM exactly as the first pass has left it. *)
Theorem second_pass_same_form (v : Validator) (s s' : State) :
  stable_selector v ->
  no_function_hook v ->
  runFormValidation v s = Returned tt s' ->
  exists s'', runFormValidation v s' = Returned tt s'' /\ form s'' = form s'.
Proof.
  intros Hst Hno H. pose proof (no_function_hook_return v Hno) as Hr.
  destruct Hno as (Hb & Ho & Ha).
  assert (Hsend : forall s0, exists evs,
            sendIfValidated v AjaxFalsy s0
            = Returned tt {| form := form s0; log := log s0 ++ evs |}).
  { intros s0. rewrite sendIfValidated_eq by exact Hr. rewrite !(hook_effect_id _ _ Hb).
    destruct (formIsValid (form s0)); rewrite ?(hook_effect_id _ _ Ho), (hook_effect_id _ _ Ha);
      eexists; reflexivity. }
  rewrite runFormValidation_eq, evaluated_eval_list in H.
  destruct (eval_list v _ _) as [[l2 cls2] [x|]] eqn:E; [discriminate|].
  cbv beta iota zeta in H.
  destruct (Hsend {| form := {| formClasses := cls2; inModal := inModal (form s); nodes := l2 |};
                     log := log s |}) as (evs & Hs1).
  rewrite Hs1 in H. injection H as <-. cbn [form log].
  rewrite runFormValidation_eq, evaluated_eval_list. cbn [form log formClasses nodes inModal].
  rewrite (round_fixed v _ _ _ _ Hst E). cbv beta iota zeta.
  match goal with |- exists s'', sendIfValidated v AjaxFalsy ?s0 = _ /\ _ =>
    destruct (Hsend s0) as (evs' & ->) end.
  eexists. split; reflexivity.
Qed.

Lemma class_selector_stable (o : UserOptions) (c : string) :
  u_fieldsSelector o = Some (class_selector c) -> c <> DEFAULTS.incorrect ->
  stable_selector {| options := extend_defaults o |}.
Proof.
  intros Ho Hc e e' _ Hcls. simpl. rewrite Ho. simpl. unfold class_selector. now apply Hcls.
Qed.

Lemma default_selector_stable (o : UserOptions) :
  u_fieldsSelector o = None -> stable_selector {| options := extend_defaults o |}.
Proof.
  intros Ho e e' _ Hcls. simpl. rewrite Ho. simpl. unfold class_selector.
  apply Hcls. discriminate.
Qed.

(** ** Requests, warnings, handlers *)

Lemma requests_ajax_events (a : Ajax) :
  requests (ajax_events a) = match a with AjaxSettings o => [o] | AjaxFalsy => [] end.
Proof. destruct a; reflexivity. Qed.

(** Whether [sendIfValidated] gets as far as the request. *)
Lemma requests_send_events (v : Validator) (a : Ajax) (d : Form) :
  requests (send_events v a d) =
  if hook_returns (beforeValidation (options v)) d
     && formIsValid (hook_effect (beforeValidation (options v)) d)
     && hook_returns (onValid (options v)) (hook_effect (beforeValidation (options v)) d)
  then requests (ajax_events (ajax_or_option v a))
  else [].
Proof.
  unfold send_events. rewrite requests_app, requests_hook_events. simpl.
  destruct (hook_returns (beforeValidation (options v)) d); simpl; [|reflexivity].
  destruct (formIsValid _); simpl; [|apply requests_hook_events].
  rewrite requests_app, requests_hook_events. simpl.
  destruct (hook_returns (onValid (options v)) _); simpl; [|reflexivity].
  now rewrite requests_app, requests_hook_events, app_nil_r.
Qed.

(** X17.  Whether it returns or a hook throws, [sendIfValidated] sends at
    most one request.  It sends none when the beforeValidation hook throws,
    when the form is not valid on the DOM left by that hook, or when the
    onValid hook throws; otherwise it sends one with the settings given as
    argument, or with those of the ajax option when the argument is falsy,
    or none when both are falsy. *)
Theorem sendIfValidated_requests (v : Validator) (a : Ajax) (s : State) :
  requests (log (final (sendIfValidated v a s))) =
  requests (log s) ++
  (if hook_returns (beforeValidation (options v)) (form s)
      && formIsValid (hook_effect (beforeValidation (options v)) (form s))
      && hook_returns (onValid (options v))
                      (hook_effect (beforeValidation (options v)) (form s))
   then match a with
        | AjaxSettings o => [o]
        | AjaxFalsy =>
            match ajax (options v) with AjaxSettings o => [o] | AjaxFalsy => [] end
        end
   else []).
Proof.
  rewrite sendIfValidated_log, requests_app, requests_send_events, requests_ajax_events.
  destruct a; reflexivity.
Qed.

Lemma warnings_app (l1 l2 : list Event) : warnings (l1 ++ l2) = warnings l1 ++ warnings l2.
Proof. apply omap_app. Qed.

Lemma warnings_hook_events (h : Hook) (cb : Callback) (d : Form) :
  warnings (hook_events h cb d) = warning_if (is_uncallable cb).
Proof. destruct cb; reflexivity. Qed.

Lemma warnings_ajax_events (a : Ajax) : warnings (ajax_events a) = [].
Proof. destruct a; reflexivity. Qed.

(** X18.  When no hook is a function, [sendIfValidated] leaves the DOM as
    it is and calls nothing; each hook that is neither null nor undefined
    gives one warning when its turn comes: beforeValidation and
    afterValidation always, onValid only when the form is valid. *)
Theorem uncallable_hooks_only_warn (v : Validator) (a : Ajax) (s : State) :
  no_function_hook v ->
  exists s' evs,
    sendIfValidated v a s = Returned tt s' /\
    form s' = form s /\
    log s' = log s ++ evs /\
    (forall h, calls h evs = 0%nat) /\
    warnings evs =
      warning_if (is_uncallable (beforeValidation (options v)))
      ++ warning_if (formIsValid (form s) && is_uncallable (onValid (options v)))
      ++ warning_if (is_uncallable (afterValidation (options v))).
Proof.
  intros Hno. pose proof (no_function_hook_return v Hno) as Hr. destruct Hno as (Hb & Ho & Ha).
  eexists. eexists. split; [apply sendIfValidated_eq; exact Hr|].
  cbn [form log]. rewrite !(hook_effect_id _ _ Hb).
  split; [|split; [reflexivity|split]].
  - destruct (formIsValid (form s)); rewrite ?(hook_effect_id _ _ Ho);
      apply (hook_effect_id _ _ Ha).
  - intros h.
    destruct (formIsValid (form s));
      rewrite ?(hook_effect_id _ _ Ho), ?calls_app, ?calls_hook_events, ?calls_ajax_events,
        ?Hb, ?Ho, ?Ha; reflexivity.
  - destruct (formIsValid (form s)); rewrite ?(hook_effect_id _ _ Ho);
      rewrite ?warnings_app, ?warnings_hook_events, ?warnings_ajax_events, ?app_nil_r;
      reflexivity.
Qed.

(** X19.  A validator built from options without the property ajax has the
    empty settings object as its ajax option, which is truthy: called
    without argument, [sendIfValidated] sends a request with empty settings
    whenever the form is valid and the calls of the beforeValidation and
    onValid hooks return, and none otherwise. *)
Theorem default_ajax_is_sent (o : UserOptions) (s : State) :
  u_ajax o = None ->
  requests (log (final (sendIfValidated {| options := extend_defaults o |} AjaxFalsy s))) =
  requests (log s) ++
  (if hook_returns (default CbNullish (u_beforeValidation o)) (form s)
      && formIsValid (hook_effect (default CbNullish (u_beforeValidation o)) (form s))
      && hook_returns (default CbNullish (u_onValid o))
                      (hook_effect (default CbNullish (u_beforeValidation o)) (form s))
   then [∅] else []).
Proof.
  intros Ho. rewrite sendIfValidated_log, requests_app, requests_send_events.
  cbn [options beforeValidation onValid extend_defaults ajax_or_option ajax].
  now rewrite Ho.
Qed.

Lemma marker_after_reset (v : Validator) (e : Element) :
  hasClass DEFAULTS.incorrect (classes (reset_elem v e)) = stray_marker v e.
Proof.
  unfold reset_elem, stray_marker. destruct (fieldsSelector (options v) e); simpl.
  - rewrite hasClass_removeClass. apply andb_false_r.
  - reflexivity.
Qed.

(** X20.  A click on the form does nothing; a click outside it, like the
    closing of the modal, removes the markers and nothing else, after which
    [formIsValid] tells only whether the form has the valid flag of an
    earlier pass (and no marker outside the selector): fields that have
    failed no longer count. *)
Theorem click_outside_forgets_failures (v : Validator) (s : State) :
  on_body_click v true s = Returned tt s /\
  on_modal_hidden v s = on_body_click v false s /\
  exists s',
    on_body_click v false s = Returned tt s' /\
    log s' = log s /\
    formClasses (form s') = formClasses (form s) /\
    map errors (nodes (form s')) = map errors (nodes (form s)) /\
    formIsValid (form s') =
      hasClass DEFAULTS.formIsValid (formClasses (form s))
      && negb (existsb (stray_marker v) (nodes (form s))).
Proof.
  split; [reflexivity|]. split; [reflexivity|].
  eexists. split; [apply removeIncorrectState_eq|]. cbn [form log formClasses nodes].
  split; [reflexivity|]. split; [reflexivity|]. split.
  - rewrite map_map. apply map_ext. intros e. now destruct (fieldsSelector (options v) e).
  - rewrite formIsValid_forallb. cbn [nodes formClasses]. rewrite andb_comm. f_equal.
    induction (nodes (form s)) as [|e l IH]; simpl; [reflexivity|].
    rewrite IH. fold (reset_elem v e). rewrite marker_after_reset.
    destruct (stray_marker v e); reflexivity.
Qed.

(** ** The pattern of validateEmail *)

Section Pattern.
Import Regex.

Lemma matches_Fail (s : string) : matches Fail s = false.
Proof. induction s as [|c s IH]; [reflexivity | exact IH]. Qed.

Lemma matches_Eps (s : string) : matches Eps s = true -> s = EmptyString.
Proof. destruct s as [|c s]; [reflexivity|]. simpl. now rewrite matches_Fail. Qed.

Lemma matches_Class (p : ascii -> bool) (s : string) :
  matches (Class p) s = true -> exists c, s = String c EmptyString /\ p c = true.
Proof.
  destruct s as [|c s]; [discriminate|]. simpl. destruct (p c) eqn:Hp.
  - intros H. apply matches_Eps in H as ->. now exists c.
  - now rewrite matches_Fail.
Qed.

Lemma alt_cases (r1 r2 : regex) :
  (r1 = Fail /\ alt r1 r2 = r2) \/ (r2 = Fail /\ alt r1 r2 = r1) \/ alt r1 r2 = Alt r1 r2.
Proof. destruct r1, r2; simpl; auto. Qed.

Lemma seq_cases (r1 r2 : regex) :
  seq r1 r2 = Fail \/ (r1 = Eps /\ seq r1 r2 = r2) \/ seq r1 r2 = Seq r1 r2.
Proof. destruct r1, r2; simpl; auto. Qed.

Lemma matches_Alt (r1 r2 : regex) (s : string) :
  matches (Alt r1 r2) s = matches r1 s || matches r2 s.
Proof.
  revert r1 r2. induction s as [|c s IH]; intros r1 r2; [reflexivity|]. simpl.
  destruct (alt_cases (deriv c r1) (deriv c r2)) as [(H1 & ->) | [(H2 & ->) | ->]].
  - now rewrite H1, matches_Fail.
  - now rewrite H2, matches_Fail, orb_false_r.
  - apply IH.
Qed.

Lemma matches_alt (r1 r2 : regex) (s : string) :
  matches (alt r1 r2) s = matches r1 s || matches r2 s.
Proof.
  destruct (alt_cases r1 r2) as [(H1 & ->) | [(H2 & ->) | ->]].
  - now rewrite H1, matches_Fail.
  - now rewrite H2, matches_Fail, orb_false_r.
  - apply matches_Alt.
Qed.

(** A string that a sequence accepts splits into a part that the first
    expression accepts and a part that the second accepts. *)
Lemma matches_Seq_split (r1 r2 : regex) (s : string) :
  matches (Seq r1 r2) s = true ->
  exists s1 s2, s = String.append s1 s2 /\ matches r1 s1 = true /\ matches r2 s2 = true.
Proof.
  revert r1. induction s as [|c s IH]; intros r1; simpl.
  - intros H. apply andb_true_iff in H as [H1 H2].
    exists EmptyString, EmptyString. auto.
  - assert (Hseq : matches (seq (deriv c r1) r2) s = true ->
              exists s1 s2, String c s = String.append s1 s2 /\
                            matches r1 s1 = true /\ matches r2 s2 = true).
    { intros H. destruct (seq_cases (deriv c r1) r2) as [E | [(E1 & E) | E]]; rewrite E in H.
      - now rewrite matches_Fail in H.
      - exists (String c EmptyString), s. simpl. rewrite E1. auto.
      - destruct (IH _ H) as (s1 & s2 & -> & H1 & H2).
        exists (String c s1), s2. auto. }
    destruct (nullable r1) eqn:Hn; [|exact Hseq].
    rewrite matches_alt. intros H. apply orb_true_iff in H as [H|H]; [now apply Hseq|].
    exists EmptyString, (String c s). simpl. auto.
Qed.

Lemma has_at_app (s1 s2 : string) :
  has_at (String.append s1 s2) = has_at s1 || has_at s2.
Proof. induction s1 as [|c s1 IH]; simpl; [reflexivity|]. now rewrite IH, orb_assoc. Qed.

Lemma starts_with_at (r : regex) (s : string) :
  matches (Seq (chr "@") r) s = true -> has_at s = true.
Proof.
  intros H. apply matches_Seq_split in H as (s1 & s2 & -> & H1 & _).
  apply matches_Class in H1 as (c & -> & Hc). simpl. rewrite Ascii.eqb_sym in Hc.
  now rewrite Hc.
Qed.

Lemma matches_suffix_has_at (r : regex) (s : string) :
  matches_suffix (Seq (chr "@") r) s = true -> has_at s = true.
Proof.
  induction s as [|c s IH].
  - simpl. discriminate.
  - intros H. change (matches (Seq (chr "@") r) (String c s)
                      || matches_suffix (Seq (chr "@") r) s = true) in H.
    apply orb_true_iff in H as [H|H].
    + now apply starts_with_at in H.
    + simpl. rewrite (IH H). apply orb_true_r.
Qed.

(** X23.  [validateEmail] accepts no string without the character [@]. *)
Theorem validateEmail_needs_at (s : string) :
  has_at s = false -> validateEmail (JSStr s) = false.
Proof.
  intros Hat. unfold validateEmail. cbn [JS.ToString].
  apply orb_false_iff. split; apply not_true_iff_false; intros H.
  - apply matches_Seq_split in H as (s1 & s2 & -> & _ & H2).
    apply (starts_with_at _ s2) in H2. rewrite has_at_app, H2, orb_true_r in Hat.
    discriminate.
  - apply (matches_suffix_has_at _ s) in H. congruence.
Qed.

Lemma matches_suffix_app (r : regex) (p s : string) :
  matches r s = true -> matches_suffix r (String.append p s) = true.
Proof.
  intros H. induction p as [|c p IH].
  - simpl. destruct s; simpl in *; rewrite H; reflexivity.
  - change (matches r (String c (String.append p s))
            || matches_suffix r (String.append p s) = true).
    rewrite IH. apply orb_true_r.
Qed.

(** X22.  The second alternative of the pattern is not anchored at the
    start: a string that it accepts, an [@] followed by four numbers
    separated by dots, is accepted by [validateEmail] after any prefix
    whatever. *)
Theorem validateEmail_any_prefix (p s : string) :
  matches EmailPattern.trailing s = true ->
  validateEmail (JSStr (String.append p s)) = true.
Proof.
  intros H. unfold validateEmail. cbn [JS.ToString].
  rewrite (matches_suffix_app _ p s H). apply orb_true_r.
Qed.

Lemma invariantb_alt (f : ascii -> ascii) (r1 r2 : regex) :
  invariantb f r1 = true -> invariantb f r2 = true -> invariantb f (alt r1 r2) = true.
Proof.
  intros H1 H2. destruct (alt_cases r1 r2) as [(_ & ->) | [(_ & ->) | ->]]; auto.
  simpl. now rewrite H1, H2.
Qed.

Lemma invariantb_seq (f : ascii -> ascii) (r1 r2 : regex) :
  invariantb f r1 = true -> invariantb f r2 = true -> invariantb f (seq r1 r2) = true.
Proof.
  intros H1 H2. destruct (seq_cases r1 r2) as [-> | [(_ & ->) | ->]]; auto.
  simpl. now rewrite H1, H2.
Qed.

Lemma invariantb_class (f : ascii -> ascii) (p : ascii -> bool) (c : ascii) :
  invariantb f (Class p) = true -> p (f c) = p c.
Proof.
  intros H. cbn [invariantb] in H. rewrite forallb_forall in H.
  specialize (H (nat_of_ascii c)). rewrite ascii_nat_embedding in H.
  apply Bool.eqb_prop. apply H. apply in_seq. pose proof (nat_ascii_bounded c). lia.
Qed.

Lemma invariantb_deriv (f : ascii -> ascii) (r : regex) (c : ascii) :
  invariantb f r = true ->
  deriv (f c) r = deriv c r /\ invariantb f (deriv c r) = true.
Proof.
  induction r as [| |p|r1 IH1 r2 IH2|r1 IH1 r2 IH2|r1 IH1]; intros H.
  - split; reflexivity.
  - split; reflexivity.
  - simpl deriv. rewrite (invariantb_class f p c H). clear H. split; [reflexivity|].
    destruct (p c); reflexivity.
  - simpl in H. apply andb_true_iff in H as [H1 H2].
    destruct (IH1 H1) as [E1 I1], (IH2 H2) as [E2 I2]. simpl. rewrite E1, E2.
    split; [reflexivity | now apply invariantb_alt].
  - simpl in H. apply andb_true_iff in H as [H1 H2].
    destruct (IH1 H1) as [E1 I1], (IH2 H2) as [E2 I2]. simpl. rewrite E1, E2.
    split; [reflexivity|].
    destruct (nullable r1); [apply invariantb_alt|]; try apply invariantb_seq; assumption.
  - destruct (IH1 H) as [E1 I1]. simpl. rewrite E1.
    split; [reflexivity | now apply invariantb_seq].
Qed.

Lemma matches_map_string (f : ascii -> ascii) (r : regex) (s : string) :
  invariantb f r = true -> matches r (map_string f s) = matches r s.
Proof.
  revert r. induction s as [|c s IH]; intros r H; [reflexivity|]. simpl.
  destruct (invariantb_deriv f r c H) as [-> Hd]. now apply IH.
Qed.

Lemma matches_suffix_map_string (f : ascii -> ascii) (r : regex) (s : string) :
  invariantb f r = true -> matches_suffix r (map_string f s) = matches_suffix r s.
Proof.
  intros H. induction s as [|c s IH]; [reflexivity|].
  change (matches r (map_string f (String c s)) || matches_suffix r (map_string f s)
          = matches r (String c s) || matches_suffix r s).
  now rewrite IH, (matches_map_string f r (String c s) H).
Qed.

(** X24.  [validateEmail] does not distinguish upper-case from lower-case
    letters: a string, the string with its letters a to z in upper case and
    the string with its letters A to Z in lower case are accepted or
    rejected together. *)
Theorem validateEmail_ignores_case (s : string) :
  validateEmail (JSStr (map_string to_upper s)) = validateEmail (JSStr s) /\
  validateEmail (JSStr (map_string to_lower s)) = validateEmail (JSStr s).
Proof.
  unfold validateEmail. cbn [JS.ToString].
  assert (Hu1 : invariantb to_upper EmailPattern.anchored = true) by (vm_compute; reflexivity).
  assert (Hu2 : invariantb to_upper EmailPattern.trailing = true) by (vm_compute; reflexivity).
  assert (Hl1 : invariantb to_lower EmailPattern.anchored = true) by (vm_compute; reflexivity).
  assert (Hl2 : invariantb to_lower EmailPattern.trailing = true) by (vm_compute; reflexivity).
  rewrite (matches_map_string to_upper _ s Hu1).
  rewrite (matches_suffix_map_string to_upper _ s Hu2).
  rewrite (matches_map_string to_lower _ s Hl1).
  rewrite (matches_suffix_map_string to_lower _ s Hl2).
  split; reflexivity.
Qed.

End Pattern.

(** ** The further properties at sample forms *)

Lemma text_exact_length_witness :
  exists l,
    lang_table (lang (options default_validator)) = Some l /\
    validateField default_validator 0 (page [] [exact_length_field]) =
    Returned tt
      (failed 0 exact_length_field
         (shown_text exact_length_field
            (JS.add (JS.add (JS.add (reqFieldLength l) (JSNum 3)) (JSStr " ")) (symbols l)))
         (page [] [exact_length_field])).
Proof.
  exact (text_exact_length default_validator 0 exact_length_field
           (bounded_input "abcd" (<["length" := JSNum 3]> (<["max-length" := JSNum 9]> ∅)))
           (page [] [exact_length_field])
           (or_introl eq_refl) eq_refl eq_refl eq_refl 3
           eq_refl eq_refl eq_refl eq_refl ltac:(discriminate)).
Defined.

Lemma text_min_max_length_witness :
  exists l mm,
    lang_table (lang (options default_validator)) = Some l /\
    minMaxFieldLength l = Some mm /\
    validateField default_validator 0 (page [] [min_max_field])
    = Returned tt (passed (page [] [min_max_field])).
Proof.
  exact (text_min_max_length default_validator 0 min_max_field
           (bounded_input "abcd" (<["min-length" := JSNum 3]> (<["max-length" := JSNum 5]> ∅)))
           (page [] [min_max_field])
           (or_introl eq_refl) eq_refl eq_refl eq_refl 3 5
           eq_refl eq_refl eq_refl eq_refl eq_refl eq_refl eq_refl eq_refl
           ltac:(discriminate)).
Defined.

Lemma text_single_bound_witness :
  JS.truthy (data (cdata (bounded_input "abcd" (<["max-length" := JSNum 3]> ∅))) "max-length")
    = true /\
  exists l,
    lang_table (lang (options default_validator)) = Some l /\
    validateField default_validator 0 (page [] [max_only_field]) =
    Returned tt
      (failed 0 max_only_field
         (shown_text max_only_field
            (JS.add (JS.add (JS.add (maxFieldLength l) (JSNum 3)) (JSStr " ")) (symbols l)))
         (page [] [max_only_field])).
Proof.
  split; [reflexivity|].
  destruct (text_single_bound default_validator 0 max_only_field
              (bounded_input "abcd" (<["max-length" := JSNum 3]> ∅))
              (page [] [max_only_field])
              (or_introl eq_refl) eq_refl eq_refl eq_refl 3
              eq_refl eq_refl ltac:(discriminate)) as (l & Hl & Hmax & _).
  exists l. split; [exact Hl|]. exact (Hmax eq_refl eq_refl eq_refl eq_refl).
Defined.

Lemma text_unreadable_bound_witness :
  exists t, validateField default_validator 0 (page [] [unreadable_bound_field])
            = Returned tt (failed 0 unreadable_bound_field t (page [] [unreadable_bound_field])).
Proof.
  exact (text_unreadable_bound default_validator 0 unreadable_bound_field
           (bounded_input "abc" (<["length" := JSStr "three"]> ∅))
           (page [] [unreadable_bound_field])
           (or_introl eq_refl) eq_refl eq_refl eq_refl
           eq_refl ltac:(discriminate) (or_introl (conj eq_refl eq_refl))).
Defined.

Lemma text_equal_witness :
  exists l,
    lang_table (lang (options default_validator)) = Some l /\
    validateField default_validator 0 (page [] [equal_field])
    = Returned tt (failed 0 equal_field (shown_text equal_field (notEqual l))
                          (page [] [equal_field])).
Proof.
  destruct (text_equal default_validator 0 equal_field
              (text_input "123" (<["validation-condition" := JSStr "equal"]>
                                   (<["equal" := JSNum 123]> ∅)))
              (page [] [equal_field])
              (or_introl eq_refl) eq_refl eq_refl eq_refl
              eq_refl ltac:(discriminate)) as (l & Hl & _ & Hother).
  exists l. split; [exact Hl|]. apply Hother. intros x. discriminate.
Defined.

Lemma phone_without_condition_never_passes_witness :
  exists l,
    lang_table (lang (options default_validator)) = Some l /\
    validateField default_validator 0 (page [] [phone_field])
    = Returned tt (failed 0 phone_field (shown_text phone_field (incorrectPhone l))
                          (page [] [phone_field])) /\
    formIsValid (form (failed 0 phone_field (shown_text phone_field (incorrectPhone l))
                              (page [] [phone_field]))) = false.
Proof.
  exact (phone_without_condition_never_passes default_validator 0 phone_field
           (text_input "+1 555 0100" ∅) (page [] [phone_field])
           (or_introl eq_refl) eq_refl eq_refl eq_refl
           ltac:(discriminate) ltac:(discriminate)).
Defined.

Lemma other_types_pass_witness :
  validateField default_validator 0 (page [] [checkbox_field])
  = Returned tt (passed (page [] [checkbox_field])).
Proof.
  apply (other_types_pass default_validator 0 checkbox_field (page [] [checkbox_field])).
  - left. reflexivity.
  - reflexivity.
  - intros x Hx. unfold evaluated_types in Hx.
    repeat (apply elem_of_cons in Hx as [-> | Hx]; [discriminate|]). inversion Hx.
Defined.

Lemma email_field_verdict_witness :
  exists l,
    lang_table (lang (options default_validator)) = Some l /\
    validateField default_validator 0 (page [] [valid_email_field])
    = Returned tt (passed (page [] [valid_email_field])).
Proof.
  destruct (email_field_verdict default_validator 0 valid_email_field (text_input "a@b.com" ∅) []
              (page [] [valid_email_field]) (or_introl eq_refl) eq_refl eq_refl eq_refl)
    as (l & Hl & H).
  exists l. split; [exact Hl|]. rewrite H. vm_compute. reflexivity.
Defined.

Lemma empty_value_shows_emptyField_witness :
  exists l m,
    lang_table (lang (options default_validator)) = Some l /\ emptyField l = JSStr m /\
    validateField default_validator 0 (page [] [custom_text_field])
    = Returned tt {| form := with_node 0 (incorrect_with m custom_text_field)
                                       (form (page [] [custom_text_field]));
                     log := log (page [] [custom_text_field]) |}.
Proof.
  exact (empty_value_shows_emptyField default_validator 0 custom_text_field
           (text_input "" ∅) (page [] [custom_text_field])
           (or_introl eq_refl) eq_refl (or_introl (conj eq_refl eq_refl)) eq_refl).
Defined.

Lemma missing_control_throws_witness :
  validateField default_validator 0 (page [] [controlless_field])
  = Thrown TypeError (page [] [controlless_field]).
Proof.
  exact (missing_control_throws default_validator 0 controlless_field
           (page [] [controlless_field]) eq_refl (or_introl (conj eq_refl eq_refl))).
Defined.

Lemma unrequired_fields_untouched_witness :
  nodes (form (final (validateAllFields default_validator
                        (page [] [optional_field; empty_text_field])))) !! 0%nat
  = Some optional_field.
Proof.
  exact (unrequired_fields_untouched default_validator
           (page [] [optional_field; empty_text_field]) 0 optional_field
           eq_refl (or_intror eq_refl)).
Defined.

Lemma failed_field_blocks_submission_witness :
  exists evs,
    log (final (runFormValidation default_validator
                  (page ["validated"] [valid_email_field; empty_text_field])))
    = log (page ["validated"] [valid_email_field; empty_text_field]) ++ evs /\
    requests evs = [] /\ calls OnValid evs = 0%nat.
Proof.
  apply (failed_field_blocks_submission default_validator
           (page ["validated"] [valid_email_field; empty_text_field]) 1 empty_text_field).
  - reflexivity.
  - vm_compute. reflexivity.
  - reflexivity.
Defined.

Lemma validity_after_evaluation_witness :
  exists s1,
    evaluated default_validator (page [] [valid_email_field; empty_text_field])
    = Returned tt s1 /\
    formIsValid (form s1) =
      (hasClass DEFAULTS.formIsValid
                (formClasses (form (page [] [valid_email_field; empty_text_field])))
       || existsb (fun e => field_passes default_validator (reset_elem default_validator e))
                  (nodes (form (page [] [valid_email_field; empty_text_field]))))
      && negb (existsb (fun e => field_fails default_validator (reset_elem default_validator e))
                       (nodes (form (page [] [valid_email_field; empty_text_field]))))
      && negb (existsb (stray_marker default_validator)
                       (nodes (form (page [] [valid_email_field; empty_text_field])))).
Proof.
  apply (validity_after_evaluation default_validator
           (page [] [valid_email_field; empty_text_field])).
  - left. reflexivity.
  - repeat constructor.
Defined.

Lemma second_pass_same_form_witness :
  exists s'',
    runFormValidation default_validator
      (final (runFormValidation default_validator
                (page [] [valid_email_field; empty_text_field])))
    = Returned tt s'' /\
    form s'' = form (final (runFormValidation default_validator
                              (page [] [valid_email_field; empty_text_field]))).
Proof.
  apply (second_pass_same_form default_validator
           (page [] [valid_email_field; empty_text_field])).
  - apply (default_selector_stable no_options). reflexivity.
  - repeat split.
  - vm_compute. reflexivity.
Defined.

Lemma thrown_pass_logs_nothing_witness :
  evaluated default_validator (page [] [valid_email_field; controlless_field])
  = Thrown TypeError (page ["validated"] [valid_email_field; controlless_field]) /\
  log (page ["validated"] [valid_email_field; controlless_field])
  = log (page [] [valid_email_field; controlless_field]).
Proof.
  apply (thrown_pass_logs_nothing default_validator
           (page [] [valid_email_field; controlless_field])).
  - repeat split.
  - vm_compute. reflexivity.
Defined.

Lemma unknown_locale_pass_witness :
  runFormValidation french_validator (page [] [optional_field; valid_email_field])
  = Thrown TypeError (page [] [optional_field; valid_email_field]).
Proof.
  exact (unknown_locale_pass french_validator (page [] [optional_field; valid_email_field])
           eq_refl).
Defined.

Lemma uncallable_hooks_only_warn_witness :
  exists s' evs,
    sendIfValidated misused_validator AjaxFalsy (page ["validated"] []) = Returned tt s' /\
    form s' = form (page ["validated"] []) /\
    log s' = log (page ["validated"] []) ++ evs /\
    (forall h, calls h evs = 0%nat) /\
    warnings evs = ["Callback should be a function."; "Callback should be a function.";
                    "Callback should be a function."].
Proof.
  apply (uncallable_hooks_only_warn misused_validator AjaxFalsy (page ["validated"] [])).
  repeat split.
Defined.

Lemma default_ajax_is_sent_witness :
  requests (log (final (sendIfValidated default_validator AjaxFalsy (page ["validated"] []))))
  = [∅].
Proof. exact (default_ajax_is_sent no_options (page ["validated"] []) eq_refl). Defined.

Lemma validateEmail_any_prefix_witness :
  validateEmail (JSStr "no local part, spaces and all @127.0.0.1") = true.
Proof.
  apply (validateEmail_any_prefix "no local part, spaces and all " "@127.0.0.1").
  vm_compute. reflexivity.
Defined.

Lemma validateEmail_needs_at_witness : validateEmail (JSStr "user.example.com") = false.
Proof. exact (validateEmail_needs_at "user.example.com" eq_refl). Defined.
